(** * Club-meeting scheduler: a shallow embedding of [app.py] and [models.py]

    The application is a Flask request layer over a SQLite store.  Handlers are
    embedded as functions from a request (form or query arguments, the clock
    reading of [datetime.now()]) and a store to an outcome: a response or a
    raised exception, the flashed notices and the store after the request.

    Conventions of the embedding:
    - Python [int] is [Z]; an INTEGER column of the store holds a signed
      64-bit value.
    - Python [str] is [string]; form values are taken to be ASCII text.
      The digits and the white space of [int] and of [strptime] are the
      ASCII ones; what they do with other characters is not modelled.
    - A Python [float] is the rational number it denotes ([Qc]); every
      operation rounds its exact result to binary64 ([fl]).  [sum] adds
      floats from left to right (CPython 3.11).
    - [date] and [time] objects are always true in a boolean context
      (Python 3.5 and later). *)

From Stdlib Require Import ZArith QArith Qcanon Qround String Ascii List Lia.
From Stdlib Require Import Floats.
From stdpp Require Import base option list strings gmap sorting.

Open Scope Z_scope.

(** ** Exceptions and the error monad

    [NotFound] is what [get_or_404] aborts the request with (a 404
    response); any other exception leaves the handler unhandled (a 500
    response). *)

Inductive exn : Type :=
  | ValueError
  | TypeError
  | ZeroDivisionError
  | IntegrityError
  | OverflowError
  | NotFound.

#[global] Instance exn_eq_dec : EqDecision exn.
Proof. solve_decision. Defined.

Inductive result (A : Type) : Type :=
  | Ok (a : A)
  | Raise (e : exn).
Arguments Ok {A} a.
Arguments Raise {A} e.

#[global] Instance result_ret : MRet result := fun A a => Ok a.
#[global] Instance result_bind : MBind result := fun A B f m =>
  match m with
  | Ok a => f a
  | Raise e => Raise e
  end.
#[global] Instance result_fmap : FMap result := fun A B f m =>
  match m with
  | Ok a => Ok (f a)
  | Raise e => Raise e
  end.

Definition raises {A} (m : result A) : Prop := exists e, m = Raise e.

(** ** Python's [int(str)] in base 10 *)

Module PyInt.

(** The white space [int] skips around an ASCII numeral: tab to carriage
    return, and the space. *)
Definition is_space (c : ascii) : bool :=
  let n := Z.of_N (N_of_ascii c) in
  ((9 <=? n) && (n <=? 13)) || (n =? 32).

Definition digit_of (c : ascii) : option Z :=
  let n := Z.of_N (N_of_ascii c) in
  if (48 <=? n) && (n <=? 57) then Some (n - 48) else None.

Fixpoint lstrip (s : list ascii) : list ascii :=
  match s with
  | c :: s' => if is_space c then lstrip s' else s
  | [] => []
  end.

Definition strip (s : list ascii) : list ascii :=
  rev (lstrip (rev (lstrip s))).

(** Digits with single underscores between them.  [sep] tells that the
    previous position was not a digit (the start, or an underscore). *)
Fixpoint digits (acc : Z) (sep : bool) (s : list ascii) : option Z :=
  match s with
  | [] => if sep then None else Some acc
  | c :: s' =>
      if Ascii.eqb c "_" then
        if sep then None else digits acc true s'
      else
        match digit_of c with
        | Some d => digits (10 * acc + d) false s'
        | None => None
        end
  end.

Definition signed (s : list ascii) : bool * list ascii :=
  match s with
  | c :: r =>
      if Ascii.eqb c "-" then (true, r)
      else if Ascii.eqb c "+" then (false, r)
      else (false, s)
  | [] => (false, [])
  end.

(** The longest digit string [int] converts
    ([sys.get_int_max_str_digits()], CPython 3.11 and later). *)
Definition max_str_digits : Z := 4300.

Definition count_digits (s : list ascii) : Z :=
  Z.of_nat (length (filter (fun c => c ≠ "_"%char) s)).

(** [int(s)] for a string [s]: [ValueError] on anything but optional white
    space, an optional sign and a digit string, and on a digit string that
    is too long. *)
Definition of_str (s : string) : result Z :=
  let '(neg, ds) := signed (strip (list_ascii_of_string s)) in
  match digits 0 true ds with
  | Some n =>
      if count_digits ds <=? max_str_digits
      then Ok (if neg then - n else n)
      else Raise ValueError
  | None => Raise ValueError
  end.

End PyInt.

(** [int(x)] where [x] comes from [request.form.get]: [int(None)] is a
    [TypeError]. *)
Definition py_int (x : option string) : result Z :=
  match x with
  | None => Raise TypeError
  | Some s => PyInt.of_str s
  end.

(** [int(x or 0)]: [None] and the empty string are false, so the integer [0]
    is converted instead. *)
Definition py_int_or_0 (x : option string) : result Z :=
  match x with
  | None => Ok 0
  | Some EmptyString => Ok 0
  | Some s => PyInt.of_str s
  end.

(** ** Calendar dates, wall-clock times *)

Record date : Type := mk_date { year : Z; month : Z; day : Z }.
Record time : Type := mk_time { hour : Z; minute : Z; second : Z; microsecond : Z }.
Record datetime : Type := combine { dt_date : date; dt_time : time }.

#[global] Instance date_eq_dec : EqDecision date.
Proof. solve_decision. Defined.
#[global] Instance time_eq_dec : EqDecision time.
Proof. solve_decision. Defined.

(** Lexicographic comparison, as Python compares dates, times and naive
    datetimes field by field. *)
Fixpoint lex_compare (a b : list Z) : comparison :=
  match a, b with
  | [], [] => Eq
  | [], _ :: _ => Lt
  | _ :: _, [] => Gt
  | x :: a', y :: b' =>
      match x ?= y with
      | Eq => lex_compare a' b'
      | c => c
      end
  end.

Definition date_fields (d : date) : list Z := [year d; month d; day d].
Definition time_fields (t : time) : list Z :=
  [hour t; minute t; second t; microsecond t].
Definition datetime_fields (dt : datetime) : list Z :=
  date_fields (dt_date dt) ++ time_fields (dt_time dt).

Definition date_compare (a b : date) : comparison :=
  lex_compare (date_fields a) (date_fields b).
Definition date_leb (a b : date) : bool :=
  match date_compare a b with Gt => false | _ => true end.

Definition datetime_compare (a b : datetime) : comparison :=
  lex_compare (datetime_fields a) (datetime_fields b).
Definition datetime_ltb (a b : datetime) : bool :=
  match datetime_compare a b with Lt => true | _ => false end.

Definition is_leap (y : Z) : bool :=
  (y mod 4 =? 0) && (negb (y mod 100 =? 0) || (y mod 400 =? 0)).

Definition days_in_month (y m : Z) : Z :=
  if m =? 2 then (if is_leap y then 29 else 28)
  else if (m =? 4) || (m =? 6) || (m =? 9) || (m =? 11) then 30
  else 31.

(** [datetime.date(y, m, d)], which raises [ValueError] outside the
    calendar. *)
Definition new_date (y m d : Z) : result date :=
  if (1 <=? y) && (y <=? 9999) && (1 <=? m) && (m <=? 12)
     && (1 <=? d) && (d <=? days_in_month y m)
  then Ok (mk_date y m d)
  else Raise ValueError.

(** [datetime.time(h, m, s)]. *)
Definition new_time (h m s : Z) : result time :=
  if (0 <=? h) && (h <=? 23) && (0 <=? m) && (m <=? 59)
     && (0 <=? s) && (s <=? 59)
  then Ok (mk_time h m s 0)
  else Raise ValueError.

(** ** [datetime.strptime]

    A format is compiled to a regular expression whose directives are
    alternations tried in order with backtracking; the input must be
    consumed entirely.  A directive is embedded as the list of its possible
    matches, most preferred first. *)

Module Strptime.

Definition directive : Type := list ascii -> list (Z * list ascii).

Definition in_range (lo hi : Z) (c : ascii) : option Z :=
  match PyInt.digit_of c with
  | Some d => if (lo <=? d) && (d <=? hi) then Some d else None
  | None => None
  end.

(** One digit in [lo..hi]. *)
Definition one (lo hi : Z) : directive := fun s =>
  match s with
  | c :: r =>
      match in_range lo hi c with
      | Some d => [(d, r)]
      | None => []
      end
  | [] => []
  end.

(** Two digits, the first in [lo1..hi1], the second in [lo2..hi2]. *)
Definition two (lo1 hi1 lo2 hi2 : Z) : directive := fun s =>
  match s with
  | c1 :: c2 :: r =>
      match in_range lo1 hi1 c1, in_range lo2 hi2 c2 with
      | Some d1, Some d2 => [(10 * d1 + d2, r)]
      | _, _ => []
      end
  | _ => []
  end.

(** A space, then one digit. *)
Definition padded (lo hi : Z) : directive := fun s =>
  match s with
  | c :: r => if Ascii.eqb c " " then one lo hi r else []
  | [] => []
  end.

Definition alt (ds : list directive) : directive := fun s =>
  d ← ds; d s.

Definition lit (c : ascii) (s : list ascii) : list (list ascii) :=
  match s with
  | c' :: r => if Ascii.eqb c c' then [r] else []
  | [] => []
  end.

(** [%Y]: four digits. *)
Definition dir_Y : directive := fun s =>
  '(hi, s1) ← two 0 9 0 9 s;
  '(lo, s2) ← two 0 9 0 9 s1;
  [(100 * hi + lo, s2)].
(** [%m]: [1[0-2]|0[1-9]|[1-9]]. *)
Definition dir_m : directive := alt [two 1 1 0 2; two 0 0 1 9; one 1 9].
(** [%d]: [3[01]|[12]\d|0[1-9]|[1-9]| [1-9]]. *)
Definition dir_d : directive :=
  alt [two 3 3 0 1; two 1 2 0 9; two 0 0 1 9; one 1 9; padded 1 9].
(** [%H]: [2[0-3]|[0-1]\d|\d]. *)
Definition dir_H : directive := alt [two 2 2 0 3; two 0 1 0 9; one 0 9].
(** [%M]: [[0-5]\d|\d]. *)
Definition dir_M : directive := alt [two 0 5 0 9; one 0 9].
(** [%S]: [6[0-1]|[0-5]\d|\d]. *)
Definition dir_S : directive := alt [two 6 6 0 1; two 0 5 0 9; one 0 9].

(** The first match of the whole expression; [ValueError] when there is
    none, or when it leaves unconverted data. *)
Definition first_match {A} (ms : list (A * list ascii)) : result A :=
  match ms with
  | (v, []) :: _ => Ok v
  | _ => Raise ValueError
  end.

Definition fmt_Ymd (s : string) : result date :=
  '(y, m, d) ← first_match (
    '(y, s1) ← dir_Y (list_ascii_of_string s);
    s2 ← lit "-" s1;
    '(m, s3) ← dir_m s2;
    s4 ← lit "-" s3;
    '(d, s5) ← dir_d s4;
    [((y, m, d), s5)]);
  new_date y m d.

Definition fmt_HM (s : string) : result time :=
  '(h, m) ← first_match (
    '(h, s1) ← dir_H (list_ascii_of_string s);
    s2 ← lit ":" s1;
    '(m, s3) ← dir_M s2;
    [((h, m), s3)]);
  new_time h m 0.

Definition fmt_HMS (s : string) : result time :=
  '(h, m, sec) ← first_match (
    '(h, s1) ← dir_H (list_ascii_of_string s);
    s2 ← lit ":" s1;
    '(m, s3) ← dir_M s2;
    s4 ← lit ":" s3;
    '(sec, s5) ← dir_S s4;
    [((h, m, sec), s5)]);
  new_time h m sec.

End Strptime.

(** ** Helpers of [app.py] *)

(** [parse_date]: [None] for an absent or empty field, the parsed date
    otherwise; a malformed field raises. *)
Definition parse_date (s : option string) : result (option date) :=
  match s with
  | None => Ok None
  | Some EmptyString => Ok None
  | Some s => Some <$> Strptime.fmt_Ymd s
  end.

(** [parse_time]: tries [%H:%M], then [%H:%M:%S]; falls back to [None]. *)
Definition parse_time (s : option string) : option time :=
  match s with
  | None => None
  | Some EmptyString => None
  | Some s =>
      match Strptime.fmt_HM s with
      | Ok t => Some t
      | Raise _ =>
          match Strptime.fmt_HMS s with
          | Ok t => Some t
          | Raise _ => None
          end
      end
  end.

(** [reject_if_past]; [now] is the reading of [datetime.now()]. *)
Definition reject_if_past (now : datetime) (d : option date) (t : option time)
  : bool :=
  match d, t with
  | Some d, Some t => datetime_ltb (combine d t) now
  | _, _ => false
  end.

(** ** Domain model ([models.py]) *)

Module Club.
Record t : Type := mk { club_id : Z; name : string }.
End Club.

Module Room.
Record t : Type := mk {
  room_id : Z;
  building : string;
  number : string;
  max_capacity : option Z
}.
End Room.

(** A row of table [meetings].  The columns declared [nullable=False] hold a
    value in every stored row; [description] may be NULL. *)
Module Meeting.
Record t : Type := mk {
  meeting_id : Z;
  date : date;
  start_time : time;
  duration_minutes : Z;
  description : option string;
  club_id : Z;
  room_id : Z;
  invited_count : Z;
  accepted_count : Z
}.
End Meeting.

(** A [Meeting] object as a handler fills it in, before it is committed:
    [date] and [start_time] hold whatever the parsers returned, [None]
    included, and the primary key is not assigned yet. *)
Module MeetingObj.
Record t : Type := mk {
  date : option date;
  start_time : option time;
  duration_minutes : Z;
  description : option string;
  club_id : Z;
  room_id : Z;
  invited_count : Z;
  accepted_count : Z
}.
End MeetingObj.

#[global] Instance Meeting_eq_dec : EqDecision Meeting.t.
Proof. solve_decision. Defined.

(** ** Persistence store

    The three tables, rows in insertion order.  [foreign_keys] tells whether
    the connection enforces foreign keys (SQLite does so only on request). *)
Record Store : Type := mk_store {
  clubs : list Club.t;
  rooms : list Room.t;
  meetings : list Meeting.t;
  foreign_keys : bool
}.

Definition set_meetings (rows : list Meeting.t) (st : Store) : Store :=
  {| clubs := clubs st; rooms := rooms st; meetings := rows;
     foreign_keys := foreign_keys st |}.

(** The key an INTEGER PRIMARY KEY column gets on insertion: one more than
    the largest key in the table (as long as that is a 64-bit value). *)
Definition next_id (ids : list Z) : Z := 1 + foldr Z.max 0 ids.

Definition has_club (st : Store) (c : Z) : bool :=
  existsb (fun k => Club.club_id k =? c) (clubs st).
Definition has_room (st : Store) (r : Z) : bool :=
  existsb (fun k => Room.room_id k =? r) (rooms st).

Definition references_ok (st : Store) (club room : Z) : bool :=
  negb (foreign_keys st) || (has_club st club && has_room st room).

(** An INTEGER column holds a signed 64-bit value; the driver refuses to
    bind a Python [int] outside of this range. *)
Definition int64 (n : Z) : bool := (- 2 ^ 63 <=? n) && (n <? 2 ^ 63).

Definition integers_fit (m : MeetingObj.t) : bool :=
  int64 (MeetingObj.duration_minutes m) && int64 (MeetingObj.club_id m)
  && int64 (MeetingObj.room_id m) && int64 (MeetingObj.invited_count m)
  && int64 (MeetingObj.accepted_count m).

(** The row a [Meeting] object is flushed to, when the statement can be
    bound and the schema admits it: NOT NULL on [date] and [start_time],
    the range of the integer columns, and the two references.  The commit
    fails on each of them and stores nothing.  (For an object that lacks a
    date or a time and also holds an integer out of range, the driver
    reports the range before the database sees the row; here such an object
    is reported by its missing value.) *)
Definition to_row (st : Store) (id : Z) (m : MeetingObj.t) : result Meeting.t :=
  match MeetingObj.date m, MeetingObj.start_time m with
  | Some d, Some t =>
      if integers_fit m then
        if references_ok st (MeetingObj.club_id m) (MeetingObj.room_id m) then
          Ok (Meeting.mk id d t (MeetingObj.duration_minutes m)
                (MeetingObj.description m) (MeetingObj.club_id m)
                (MeetingObj.room_id m) (MeetingObj.invited_count m)
                (MeetingObj.accepted_count m))
        else Raise IntegrityError
      else Raise OverflowError
  | _, _ => Raise IntegrityError
  end.

(** [db.session.add(m); db.session.commit()] *)
Definition insert_meeting (m : MeetingObj.t) (st : Store) : result Store :=
  row ← to_row st (next_id (Meeting.meeting_id <$> meetings st)) m;
  Ok (set_meetings (meetings st ++ [row]) st).

(** Attribute assignments on a loaded row, then [db.session.commit()]. *)
Definition update_meeting (id : Z) (m : MeetingObj.t) (st : Store)
  : result Store :=
  row ← to_row st id m;
  Ok (set_meetings
        ((fun r => if decide (Meeting.meeting_id r = id) then row else r)
           <$> meetings st) st).

(** [db.session.delete(m); db.session.commit()] *)
Definition delete_meeting (id : Z) (st : Store) : Store :=
  set_meetings (filter (fun r => Meeting.meeting_id r ≠ id) (meetings st)) st.

(** [Meeting.query.get_or_404(meeting_id)] *)
Definition get_or_404 (id : Z) (st : Store) : result Meeting.t :=
  match list_find (fun r => Meeting.meeting_id r = id) (meetings st) with
  | Some (_, r) => Ok r
  | None => Raise NotFound
  end.

(** *** Ordering *)

Definition leb_of (c : comparison) : bool :=
  match c with Gt => false | _ => true end.

Definition meeting_key (m : Meeting.t) : list Z :=
  date_fields (Meeting.date m) ++ time_fields (Meeting.start_time m).

(** [(date, start_time)] ascending. *)
Definition meeting_le (a b : Meeting.t) : Prop :=
  leb_of (lex_compare (meeting_key a) (meeting_key b)) = true.
(** [(date, start_time)] descending. *)
Definition meeting_ge (a b : Meeting.t) : Prop := meeting_le b a.

#[global] Instance meeting_le_dec : RelDecision meeting_le.
Proof. unfold RelDecision, meeting_le. intros a b. apply _. Defined.
#[global] Instance meeting_ge_dec : RelDecision meeting_ge.
Proof. unfold RelDecision, meeting_ge. intros a b. apply _. Defined.

Definition club_le (a b : Club.t) : Prop :=
  leb_of (String.compare (Club.name a) (Club.name b)) = true.

Definition room_le (a b : Room.t) : Prop :=
  leb_of (match String.compare (Room.building a) (Room.building b) with
          | Eq => String.compare (Room.number a) (Room.number b)
          | c => c
          end) = true.

#[global] Instance club_le_dec : RelDecision club_le.
Proof. unfold RelDecision, club_le. intros a b. apply _. Defined.
#[global] Instance room_le_dec : RelDecision room_le.
Proof. unfold RelDecision, room_le. intros a b. apply _. Defined.

(** [Club.query.order_by(Club.name).all()] *)
Definition clubs_by_name (st : Store) : list Club.t :=
  merge_sort club_le (clubs st).
(** [Room.query.order_by(Room.building, Room.number).all()] *)
Definition rooms_by_building_number (st : Store) : list Room.t :=
  merge_sort room_le (rooms st).

(** [q.order_by(Meeting.date, Meeting.start_time).all()] *)
Definition order_by_date_time (q : list Meeting.t) : list Meeting.t :=
  merge_sort meeting_le q.
(** [q.order_by(Meeting.date.desc(), Meeting.start_time.desc()).all()] *)
Definition order_by_date_time_desc (q : list Meeting.t) : list Meeting.t :=
  merge_sort meeting_ge q.


(** ** Requests, responses and the handler monad *)

(** [request.form] and [request.args]: [get] gives the value of a key, or
    [None]; a key sent several times stands with its first value. *)
Abbreviation Params := (gmap string string).

(** [request.args.get(key, type=int)]: the conversion error is swallowed and
    the default [None] returned. *)
Definition args_get_int (args : Params) (key : string) : option Z :=
  match args !! key with
  | None => None
  | Some s =>
      match PyInt.of_str s with
      | Ok z => Some z
      | Raise _ => None
      end
  end.

(** Truth value of an optional string: [None] and [""] are false. *)
Definition str_truthy (s : option string) : bool :=
  match s with
  | None => false
  | Some EmptyString => false
  | Some _ => true
  end.

Module Filters.
Record t : Type := mk {
  club_id : option Z;
  room_id : option Z;
  date_from : option string;
  date_to : option string
}.
End Filters.

Module Stats.
Record t : Type := mk {
  avg_duration : Qc;
  avg_invited : Qc;
  avg_accepted : Qc;
  avg_attendance_rate : Qc
}.
End Stats.

(** What [render_template] is given. *)
Inductive View : Type :=
  | index_html
  | meetings_list_html (rows : list Meeting.t)
  | meeting_form_html (mode : string) (m : option Meeting.t)
      (clubs : list Club.t) (rooms : list Room.t) (now : datetime)
  | report_html (clubs : list Club.t) (rooms : list Room.t)
      (rows : list Meeting.t) (filters : Filters.t) (stats : Stats.t).

(** Targets of [url_for]. *)
Inductive Endpoint : Type :=
  | url_meetings_list
  | url_meetings_new
  | url_meetings_edit (meeting_id : Z).

Inductive Response : Type :=
  | Render (v : View)
  | Redirect (e : Endpoint).

(** The state a handler runs in: the committed store and the notices
    flashed so far. *)
Record Ctx : Type := mk_ctx { db : Store; flashed : list string }.

Definition Handler (A : Type) : Type := Ctx -> result A * Ctx.

#[global] Instance handler_ret : MRet Handler := fun A a c => (Ok a, c).
#[global] Instance handler_bind : MBind Handler := fun A B f m c =>
  match m c with
  | (Ok a, c') => f a c'
  | (Raise e, c') => (Raise e, c')
  end.

(** A computation that may raise. *)
Definition lift {A} (r : result A) : Handler A := fun c => (r, c).
(** A query on the store. *)
Definition query {A} (q : Store -> A) : Handler A := fun c => (Ok (q (db c)), c).
(** A query that may abort the request. *)
Definition query_or_abort {A} (q : Store -> result A) : Handler A := fun c =>
  (q (db c), c).
(** A unit of work committed to the store; a failed commit leaves the store
    as it was. *)
Definition commit (w : Store -> result Store) : Handler unit := fun c =>
  match w (db c) with
  | Ok st => (Ok tt, mk_ctx st (flashed c))
  | Raise e => (Raise e, c)
  end.
Definition flash (msg : string) : Handler unit := fun c =>
  (Ok tt, mk_ctx (db c) (flashed c ++ [msg])).

(** ** Binary floating point

    A [float] is given by the rational number it denotes.  An operation on
    floats has the exact result rounded to the nearest binary64 number, a
    tie going to the one with the even significand; [fl] is this rounding.
    The range of the exponent is not bounded: the numbers of the report are
    quotients and short sums of 64-bit integers, far from it. *)

(** [num / den] rounded to the nearest integer, a tie going to the even
    one; [den] is positive. *)
Definition round_half_even (num den : Z) : Z :=
  let n := num / den in
  match 2 * (num mod den) ?= den with
  | Lt => n
  | Gt => n + 1
  | Eq => if Z.even n then n else n + 1
  end.

(** [2^e] as a rational. *)
Definition pow2 (e : Z) : Qc :=
  if 0 <=? e then Qc_of_Z (2 ^ e) else (/ Qc_of_Z (2 ^ (- e)))%Qc.

(** [p / q] for positive [p] and [q]: the exponent [e] is the one with
    [2^52 <= p / q / 2^e < 2^53], the significand is [p / q / 2^e] rounded
    to an integer. *)
Definition fl_pos (p q : Z) : Qc :=
  let scaled e := if 0 <=? e then (p, q * 2 ^ e) else (p * 2 ^ (- e), q) in
  let e0 := Z.log2 p - Z.log2 q - 52 in
  let e := if fst (scaled e0) <? 2 ^ 52 * snd (scaled e0) then e0 - 1
           else e0 in
  (Qc_of_Z (round_half_even (fst (scaled e)) (snd (scaled e))) * pow2 e)%Qc.

Definition fl (x : Qc) : Qc :=
  match Qnum x with
  | 0 => 0%Qc
  | Zpos p => fl_pos (Zpos p) (Zpos (Qden x))
  | Zneg p => (- fl_pos (Zpos p) (Zpos (Qden x)))%Qc
  end.

(** The rational a primitive binary64 float of the proof assistant denotes
    ([0] for an infinity or a NaN), to compare [fl] with the operations of
    the hardware. *)
Module Binary64.

Definition value (f : float) : Qc :=
  match Prim2SF f with
  | S754_finite neg m e =>
      let v := (Qc_of_Z (Zpos m) * pow2 e)%Qc in
      if neg then (- v)%Qc else v
  | _ => 0%Qc
  end.

Definition of_int (n : Z) : float := PrimFloat.of_uint63 (Uint63.of_Z n).

End Binary64.

(** ** Arithmetic of the report *)

(** [a / b] on integers: the quotient, correctly rounded;
    [ZeroDivisionError] on a zero divisor. *)
Definition py_truediv (a b : Z) : result Qc :=
  if b =? 0 then Raise ZeroDivisionError
  else Ok (fl (Qc_of_Z a / Qc_of_Z b)).

(** [x / n] for a float [x] and an integer [n]: [n] is converted to a
    float first. *)
Definition float_truediv (x : Qc) (n : Z) : result Qc :=
  if n =? 0 then Raise ZeroDivisionError
  else Ok (fl (x / fl (Qc_of_Z n))).

(** [sum] of a list of integers. *)
Definition sum_Z (l : list Z) : Z := foldr Z.add 0 l.

(** [sum] of a list of floats: added one by one, from the left, starting
    from [0]. *)
Definition float_sum (l : list Qc) : Qc :=
  foldl (fun s x => fl (s + x)) 0%Qc l.

(** [len] as a number. *)
Definition len {A} (l : list A) : Z := Z.of_nat (length l).

(** [round(x, ndigits)] on a float: the multiple of [10^-ndigits] nearest to
    the number [x] denotes, a tie going to the even one, as a float
    again. *)
Definition py_round (x : Qc) (ndigits : nat) : Qc :=
  let s := 10 ^ Z.of_nat ndigits in
  fl (Qc_of_Z (round_half_even (Qnum x * s) (Zpos (Qden x))) / Qc_of_Z s).

(** [(sum(f(m) for m in rows)/n) if n else 0] *)
Definition avg_of (f : Meeting.t -> Z) (rows : list Meeting.t) : result Qc :=
  let n := len rows in
  if n =? 0 then Ok 0%Qc
  else py_truediv (sum_Z (f <$> rows)) n.

(** [[(m.accepted_count/m.invited_count) for m in rows if m.invited_count]]:
    an integer is true when it is not zero. *)
Definition rates (rows : list Meeting.t) : result (list Qc) :=
  mapM (fun m => py_truediv (Meeting.accepted_count m)
                   (Meeting.invited_count m))
       (filter (fun m => Meeting.invited_count m ≠ 0) rows).

(** [(sum(rates)/len(rates)) if rates else 0] *)
Definition avg_attendance_rate (rows : list Meeting.t) : result Qc :=
  rs ← rates rows;
  match rs with
  | [] => Ok 0%Qc
  | _ :: _ => float_truediv (float_sum rs) (len rs)
  end.

(** ** Routes of [app.py] *)

Definition home : Handler Response :=
  mret (Render index_html).

Definition meetings_list : Handler Response :=
  rows ← query (fun st => order_by_date_time_desc (meetings st));
  mret (Render (meetings_list_html rows)).

Definition meetings_new (now : datetime) : Handler Response :=
  clubs ← query clubs_by_name;
  rooms ← query rooms_by_building_number;
  mret (Render (meeting_form_html "create" None clubs rooms now)).

Definition meetings_create (now : datetime) (form : Params)
  : Handler Response :=
  d ← lift (parse_date (form !! "date"));
  let t := parse_time (form !! "start_time") in
  if reject_if_past now d t then
    flash "Cannot schedule a meeting in the past!";;
    mret (Redirect url_meetings_new)
  else
    invited ← lift (Z.max 0 <$> py_int_or_0 (form !! "invited_count"));
    accepted ← lift (Z.max 0 <$> py_int_or_0 (form !! "accepted_count"));
    duration_minutes ← lift (py_int_or_0 (form !! "duration_minutes"));
    let description := form !! "description" in
    club_id ← lift (py_int (form !! "club_id"));
    room_id ← lift (py_int (form !! "room_id"));
    let m := MeetingObj.mk d t duration_minutes description club_id room_id
               invited accepted in
    commit (insert_meeting m);;
    flash "Meeting created!";;
    mret (Redirect url_meetings_list).

Definition meetings_edit (now : datetime) (meeting_id : Z)
  : Handler Response :=
  m ← query_or_abort (get_or_404 meeting_id);
  clubs ← query clubs_by_name;
  rooms ← query rooms_by_building_number;
  mret (Render (meeting_form_html "edit" (Some m) clubs rooms now)).

(** The attributes of the loaded object are assigned one by one; when a
    conversion raises, the half-assigned object is dropped with the session
    and nothing is committed, so the assignments are gathered and flushed by
    the commit. *)
Definition meetings_update (now : datetime) (meeting_id : Z) (form : Params)
  : Handler Response :=
  _ ← query_or_abort (get_or_404 meeting_id);
  d ← lift (parse_date (form !! "date"));
  let t := parse_time (form !! "start_time") in
  if reject_if_past now d t then
    flash "Cannot schedule a meeting in the past!";;
    mret (Redirect (url_meetings_edit meeting_id))
  else
    duration_minutes ← lift (py_int_or_0 (form !! "duration_minutes"));
    let description := form !! "description" in
    club_id ← lift (py_int (form !! "club_id"));
    room_id ← lift (py_int (form !! "room_id"));
    invited_count ← lift (Z.max 0 <$> py_int_or_0 (form !! "invited_count"));
    accepted_count ← lift (Z.max 0 <$> py_int_or_0 (form !! "accepted_count"));
    let m := MeetingObj.mk d t duration_minutes description club_id room_id
               invited_count accepted_count in
    commit (update_meeting meeting_id m);;
    flash "Meeting updated!";;
    mret (Redirect url_meetings_list).

Definition meetings_delete (meeting_id : Z) : Handler Response :=
  _ ← query_or_abort (get_or_404 meeting_id);
  commit (fun st => Ok (delete_meeting meeting_id st));;
  flash "Meeting deleted!";;
  mret (Redirect url_meetings_list).

(** The query of [report]: each filter is added when its parameter is true
    in a boolean context, so a [club_id] or [room_id] of [0] adds none. *)
Definition report_query (club_id room_id : option Z)
    (date_from date_to : option date) (st : Store) : list Meeting.t :=
  let q := meetings st in
  let q := match club_id with
           | Some c =>
               if c =? 0 then q else filter (fun m => Meeting.club_id m = c) q
           | None => q
           end in
  let q := match room_id with
           | Some r =>
               if r =? 0 then q else filter (fun m => Meeting.room_id m = r) q
           | None => q
           end in
  let q := match date_from with
           | Some d => filter (fun m => date_leb d (Meeting.date m) = true) q
           | None => q
           end in
  let q := match date_to with
           | Some d => filter (fun m => date_leb (Meeting.date m) d = true) q
           | None => q
           end in
  order_by_date_time q.

Definition report (args : Params) : Handler Response :=
  clubs ← query clubs_by_name;
  rooms ← query rooms_by_building_number;
  let club_id := args_get_int args "club_id" in
  let room_id := args_get_int args "room_id" in
  let date_from_s := args !! "date_from" in
  let date_to_s := args !! "date_to" in
  date_from ← lift (if str_truthy date_from_s then parse_date date_from_s
                    else Ok None);
  date_to ← lift (if str_truthy date_to_s then parse_date date_to_s
                  else Ok None);
  rows ← query (report_query club_id room_id date_from date_to);
  avg_duration ← lift (avg_of Meeting.duration_minutes rows);
  avg_invited ← lift (avg_of Meeting.invited_count rows);
  avg_accepted ← lift (avg_of Meeting.accepted_count rows);
  avg_rate ← lift (avg_attendance_rate rows);
  mret (Render (report_html clubs rooms rows
                  (Filters.mk club_id room_id date_from_s date_to_s)
                  (Stats.mk (py_round avg_duration 2) (py_round avg_invited 2)
                     (py_round avg_accepted 2) (py_round avg_rate 3)))).

(** ** Seeding *)

Definition seed_clubs (st : Store) : list Club.t :=
  match clubs st with
  | [] => [Club.mk 1 "Chess Club"; Club.mk 2 "Robotics"; Club.mk 3 "Art Society"]
  | cs => cs
  end.

Definition seed_rooms (st : Store) : list Room.t :=
  match rooms st with
  | [] => [Room.mk 1 "Eng" "101" (Some 40); Room.mk 2 "Sci" "202" (Some 60)]
  | rs => rs
  end.

(** The seeding at import time: clubs and rooms, when their table is
    empty. *)
Definition startup (st : Store) : Store :=
  {| clubs := seed_clubs st; rooms := seed_rooms st; meetings := meetings st;
     foreign_keys := foreign_keys st |}.

Definition seed_meetings : list Meeting.t :=
  [Meeting.mk 1 (mk_date 2025 11 10) (mk_time 12 0 0 0) 60
     (Some "Weekly meetup") 1 1 20 12;
   Meeting.mk 2 (mk_date 2025 11 12) (mk_time 15 30 0 0) 90
     (Some "Workshop") 2 2 35 22].

(** The [init-db] command: one commit for all the seeds, undone as a whole
    when a reference of a seeded meeting is refused. *)
Definition init_db (st : Store) : Store :=
  let st1 := startup st in
  match meetings st with
  | [] =>
      if forallb (fun m => references_ok st1 (Meeting.club_id m)
                             (Meeting.room_id m)) seed_meetings
      then set_meetings seed_meetings st1
      else st
  | _ => st1
  end.

(** ** The application as a state machine *)

Inductive Request : Type :=
  | GET_home
  | GET_meetings
  | GET_meetings_new
  | POST_meetings (form : Params)
  | GET_meetings_edit (meeting_id : Z)
  | POST_meetings_update (meeting_id : Z) (form : Params)
  | POST_meetings_delete (meeting_id : Z)
  | GET_report (args : Params).

Definition dispatch (now : datetime) (r : Request) : Handler Response :=
  match r with
  | GET_home => home
  | GET_meetings => meetings_list
  | GET_meetings_new => meetings_new now
  | POST_meetings form => meetings_create now form
  | GET_meetings_edit id => meetings_edit now id
  | POST_meetings_update id form => meetings_update now id form
  | POST_meetings_delete id => meetings_delete id
  | GET_report args => report args
  end.

(** A request served on a store: the response or the exception, and the
    context it ends in. *)
Definition serve (h : Handler Response) (st : Store) : result Response * Ctx :=
  h (mk_ctx st []).

Definition store_after (o : result Response * Ctx) : Store := db (snd o).

Definition empty_db (fk : bool) : Store :=
  {| clubs := []; rooms := []; meetings := []; foreign_keys := fk |}.

(** The stores the application can be in. *)
Inductive reachable : Store -> Prop :=
  | reach_empty fk : reachable (empty_db fk)
  | reach_startup st : reachable st -> reachable (startup st)
  | reach_init_db st : reachable st -> reachable (init_db st)
  | reach_serve st now r :
      reachable st -> reachable (store_after (serve (dispatch now r) st)).

(** ** Notions the properties are stated with *)

(** Strict lexicographic order on field lists: the first field that differs
    is smaller. *)
Inductive lex_lt : list Z -> list Z -> Prop :=
  | lex_lt_nil y b : lex_lt [] (y :: b)
  | lex_lt_here x y a b : x < y -> lex_lt (x :: a) (y :: b)
  | lex_lt_next x a b : lex_lt a b -> lex_lt (x :: a) (x :: b).

(** [a] is a moment strictly earlier than [b]. *)
Definition earlier (a b : datetime) : Prop :=
  lex_lt (datetime_fields a) (datetime_fields b).

(** [a] is the day [b] or a day before it. *)
Definition on_or_before (a b : date) : Prop :=
  a = b \/ lex_lt (date_fields a) (date_fields b).

(** [a] is scheduled no later than [b]: its (date, start_time) is not after
    that of [b]. *)
Definition not_after (a b : Meeting.t) : Prop :=
  ~ lex_lt (meeting_key b) (meeting_key a).

(** The attendance rate of one meeting. *)
Definition rate (m : Meeting.t) : Qc :=
  (Qc_of_Z (Meeting.accepted_count m) / Qc_of_Z (Meeting.invited_count m))%Qc.

(** The exact sum of a list of numbers. *)
Definition sum_Qc (l : list Qc) : Qc := foldr Qcplus 0%Qc l.

(** The mean of a list of numbers, [0] for the empty list. *)
Definition mean (l : list Qc) : Qc :=
  match l with
  | [] => 0%Qc
  | _ :: _ => (sum_Qc l / Qc_of_Z (len l))%Qc
  end.

(** The mean attendance rate as the specification words it: over the rows
    with [invited_count > 0] only. *)
Definition mean_rate_of_invited (rows : list Meeting.t) : Qc :=
  mean (rate <$> filter (fun m => 0 < Meeting.invited_count m) rows).

(** A meeting passes the filters of a report: a club or room filter applies
    when its parameter is a number other than [0], a date bound when it is
    given; both bounds are inclusive. *)
Definition in_report (club room : option Z) (date_from date_to : option date)
    (m : Meeting.t) : Prop :=
  (forall c, club = Some c -> c <> 0 -> Meeting.club_id m = c) /\
  (forall r, room = Some r -> r <> 0 -> Meeting.room_id m = r) /\
  (forall d, date_from = Some d -> on_or_before d (Meeting.date m)) /\
  (forall d, date_to = Some d -> on_or_before (Meeting.date m) d).

(** The mean of a column over all the rows. *)
Definition mean_column (f : Meeting.t -> Z) (rows : list Meeting.t) : Qc :=
  mean (Qc_of_Z <$> (f <$> rows)).

(** The same quantities as floats.  The rate of a meeting is the float
    nearest to its quotient; the mean of a list of floats is their sum,
    added from the left, over their number; the mean of an integer column
    is the float nearest to the exact quotient of the sum and the number of
    rows. *)
Definition float_rate (m : Meeting.t) : Qc := fl (rate m).

Definition float_mean (l : list Qc) : Qc :=
  match l with
  | [] => 0%Qc
  | _ :: _ => fl (float_sum l / fl (Qc_of_Z (len l)))
  end.

Definition float_mean_rate_of_invited (rows : list Meeting.t) : Qc :=
  float_mean (float_rate <$> filter (fun m => 0 < Meeting.invited_count m) rows).

Definition float_mean_column (f : Meeting.t -> Z) (rows : list Meeting.t)
  : Qc :=
  match rows with
  | [] => 0%Qc
  | _ :: _ => fl (Qc_of_Z (sum_Z (f <$> rows)) / Qc_of_Z (len rows))
  end.

(** *** The text of a field

    The fields are taken to hold ASCII text.  An integer literal is a
    digit string, digits with single underscores between them, with an
    optional sign before it and optional white space around; a date is
    written as a year of four digits, a month and a day of one or two
    digits (the day may also be a space and one digit), joined by ["-"],
    and must be a date of the calendar. *)
Definition is_ascii (s : string) : Prop :=
  Forall (fun c => (N_of_ascii c < 128)%N) (list_ascii_of_string s).

Definition ascii_digit (c : ascii) : Prop :=
  c ∈ ["0"; "1"; "2"; "3"; "4"; "5"; "6"; "7"; "8"; "9"]%char.

(** Space, tab, line feed, vertical tab, form feed, carriage return. *)
Definition white_space (c : ascii) : Prop :=
  c ∈ [" "; "009"; "010"; "011"; "012"; "013"]%char.

Inductive digit_group : list ascii -> Prop :=
  | digit_group_one c : ascii_digit c -> digit_group [c]
  | digit_group_more c l :
      ascii_digit c -> digit_group l -> digit_group (c :: l)
  | digit_group_underscore c l :
      ascii_digit c -> digit_group l -> digit_group (c :: "_"%char :: l).

Definition int_literal (s : string) : Prop :=
  exists pre sign body post,
    list_ascii_of_string s = pre ++ sign ++ body ++ post
    /\ Forall white_space pre /\ Forall white_space post
    /\ (sign = [] \/ sign = ["+"%char] \/ sign = ["-"%char])
    /\ digit_group body.

(** The character of the digit [d]. *)
Definition digit_char (d : Z) : ascii := ascii_of_N (Z.to_N (48 + d)).

Definition digit_value (c : ascii) (d : Z) : Prop :=
  0 <= d <= 9 /\ c = digit_char d.

(** [cs] is a decimal numeral of [v]. *)
Inductive numeral : list ascii -> Z -> Prop :=
  | numeral_digit c d : digit_value c d -> numeral [c] d
  | numeral_snoc cs v c d :
      numeral cs v -> digit_value c d -> numeral (cs ++ [c]) (10 * v + d).

(** A field that is present, not empty, and not an integer literal. *)
Definition non_numeric (x : option string) : Prop :=
  exists s, x = Some s /\ s <> EmptyString /\ is_ascii s /\ ~ int_literal s.

(** The counts of every stored meeting are not negative. *)
Definition counts_nonneg (st : Store) : Prop :=
  Forall (fun m => 0 <= Meeting.invited_count m /\ 0 <= Meeting.accepted_count m)
    (meetings st).

(** One of the conversions a submit handler makes after the past-check
    raises. *)
Definition some_field_raises (form : Params) : Prop :=
  raises (py_int_or_0 (form !! "invited_count"))
  \/ raises (py_int_or_0 (form !! "accepted_count"))
  \/ raises (py_int_or_0 (form !! "duration_minutes"))
  \/ raises (py_int (form !! "club_id"))
  \/ raises (py_int (form !! "room_id")).

(** ** A running example

    The clock reads 2025-11-01 09:00; three meetings are created on a freshly
    seeded store, with invited counts 20, 0, 10 and accepted counts
    12, 5, 0. *)

Definition example_now : datetime :=
  combine (mk_date 2025 11 1) (mk_time 9 0 0 0).

Definition example_form (date invited accepted : string) : Params :=
  list_to_map
    [("date", date); ("start_time", "18:30"); ("duration_minutes", "60");
     ("description", "Weekly meetup"); ("club_id", "1"); ("room_id", "1");
     ("invited_count", invited); ("accepted_count", accepted)].

Definition example_requests : list (datetime * Request) :=
  [(example_now, POST_meetings (example_form "2025-11-10" "20" "12"));
   (example_now, POST_meetings (example_form "2025-11-11" "0" "5"));
   (example_now, POST_meetings (example_form "2025-11-12" "10" "0"))].

(** The store after a sequence of requests, each with the clock reading it
    is served at. *)
Definition serve_all (rs : list (datetime * Request)) (st : Store) : Store :=
  foldl (fun st r => store_after (serve (dispatch r.1 r.2) st)) st rs.

Definition example_store : Store :=
  serve_all example_requests (startup (empty_db false)).

(** A report restricted to two days. *)
Definition range_args : Params :=
  list_to_map [("date_from", "2025-11-11"); ("date_to", "2025-11-12")].

Definition is_create (r : Request) : bool :=
  match r with
  | POST_meetings _ => true
  | _ => false
  end.

(** ** Further notions *)

(** The primary keys in use. *)
Definition ids (st : Store) : list Z := Meeting.meeting_id <$> meetings st.

(** The requests routed with method GET. *)
Definition is_get (r : Request) : bool :=
  match r with
  | GET_home | GET_meetings | GET_meetings_new | GET_meetings_edit _
  | GET_report _ => true
  | POST_meetings _ | POST_meetings_update _ _ | POST_meetings_delete _ => false
  end.

(** The notices of the three successful submissions. *)
Definition success_notices : list string :=
  ["Meeting created!"; "Meeting updated!"; "Meeting deleted!"].

(** A date of the calendar, a time of the day without a fraction of a
    second. *)
Definition valid_date (d : date) : Prop :=
  1 <= year d <= 9999 /\ 1 <= month d <= 12
  /\ 1 <= day d <= days_in_month (year d) (month d).

Definition valid_time (t : time) : Prop :=
  0 <= hour t <= 23 /\ 0 <= minute t <= 59 /\ 0 <= second t <= 59
  /\ microsecond t = 0.

(** [s] is the date [d], written out. *)
Definition date_written (s : string) (d : date) : Prop :=
  exists ys ms ds,
    list_ascii_of_string s = ys ++ "-"%char :: ms ++ "-"%char :: ds
    /\ length ys = 4%nat /\ numeral ys (year d)
    /\ (length ms <= 2)%nat /\ numeral ms (month d)
    /\ ((length ds <= 2)%nat /\ numeral ds (day d)
        \/ exists c, ds = [" "%char; c] /\ numeral [c] (day d))
    /\ valid_date d.

(** A field that is present, not empty, and not a date written out. *)
Definition malformed_date (x : option string) : Prop :=
  exists s, x = Some s /\ s <> EmptyString /\ is_ascii s
            /\ ~ exists d, date_written s d.

(** A field that is absent, empty, or a date written out. *)
Definition absent_or_date (x : option string) : Prop :=
  x = None \/ x = Some EmptyString \/ exists s d, x = Some s /\ date_written s d.

(** The date and the time of a submission are both there, and their
    combination is earlier than [now]. *)
Definition past_submission (now : datetime) (form : Params) : Prop :=
  exists d t,
    parse_date (form !! "date") = Ok (Some d)
    /\ parse_time (form !! "start_time") = Some t
    /\ earlier (combine d t) now.

(** What a stored key list must satisfy. *)
Definition keys_ok (l : list Z) : Prop := NoDup l /\ Forall (fun i => 1 <= i) l.

(** Every stored meeting is set on a date of the calendar, at a time of the
    day. *)
Definition rows_valid (st : Store) : Prop :=
  Forall (fun m => valid_date (Meeting.date m)
                   /\ valid_time (Meeting.start_time m)) (meetings st).

(** A report from a day to an earlier day. *)
Definition inverted_range_args : Params :=
  list_to_map [("date_from", "2025-11-12"); ("date_to", "2025-11-10")].

(** The text a form submits: a date as [YYYY-MM-DD], a time as [HH:MM] or
    as [HH:MM:SS], every number zero-padded to its width. *)
Definition two_digits (n : Z) : list ascii :=
  [digit_char (n / 10); digit_char (n mod 10)].

Definition four_digits (n : Z) : list ascii :=
  two_digits (n / 100) ++ two_digits (n mod 100).

Definition date_text (d : date) : string :=
  string_of_list_ascii
    (four_digits (year d) ++ "-"%char :: two_digits (month d)
       ++ "-"%char :: two_digits (day d)).

Definition time_text_HM (t : time) : string :=
  string_of_list_ascii
    (two_digits (hour t) ++ ":"%char :: two_digits (minute t)).

Definition time_text_HMS (t : time) : string :=
  string_of_list_ascii
    (two_digits (hour t) ++ ":"%char :: two_digits (minute t)
       ++ ":"%char :: two_digits (second t)).

(** The order of texts: character by character, by character code; a
    proper prefix comes first. *)
Definition codes (s : string) : list Z :=
  (fun c => Z.of_N (N_of_ascii c)) <$> list_ascii_of_string s.

Definition text_before (a b : string) : Prop := lex_lt (codes a) (codes b).

(** Club [a] is listed no later than club [b] by name; room [a] no later
    than room [b] by building, and by number within a building. *)
Definition club_not_after (a b : Club.t) : Prop :=
  ~ text_before (Club.name b) (Club.name a).

Definition room_not_after (a b : Room.t) : Prop :=
  ~ text_before (Room.building b) (Room.building a)
  /\ (Room.building a = Room.building b ->
      ~ text_before (Room.number b) (Room.number a)).

(** The comparison of two rooms by the codes of building, then number. *)
Definition room_compare (a b : Room.t) : comparison :=
  match lex_compare (codes (Room.building a)) (codes (Room.building b)) with
  | Eq => lex_compare (codes (Room.number a)) (codes (Room.number b))
  | c => c
  end.

(** The clubs are none or the three seeded ones, the rooms none or the two
    seeded ones. *)
Definition seeded_or_empty (st : Store) : Prop :=
  (clubs st = []
   \/ clubs st = [Club.mk 1 "Chess Club"; Club.mk 2 "Robotics";
                  Club.mk 3 "Art Society"])
  /\ (rooms st = []
      \/ rooms st = [Room.mk 1 "Eng" "101" (Some 40);
                     Room.mk 2 "Sci" "202" (Some 60)]).

(** * Properties *)

(** ** The error monad and the handler monad *)

Lemma result_bind_Ok {A B} (f : A -> result B) (m : result A) (b : B) :
  m ≫= f = Ok b <-> exists a, m = Ok a /\ f a = Ok b.
Proof.
  destruct m as [a|e]; simpl.
  - split; [eauto | intros (a' & [= ->] & ?); done].
  - split; [done | intros (a' & [=] & _)].
Qed.

Lemma result_fmap_Ok {A B} (f : A -> B) (m : result A) (b : B) :
  f <$> m = Ok b <-> exists a, m = Ok a /\ b = f a.
Proof.
  destruct m as [a|e]; simpl.
  - split; [intros [= <-]; eauto | intros (a' & [= ->] & ->); done].
  - split; [done | intros (a' & [=] & _)].
Qed.

(** Unfolds the plumbing of a handler run on a context. *)
Ltac run :=
  unfold serve, store_after, mbind, handler_bind, mret, handler_ret,
    lift, query, query_or_abort, commit, flash; simpl.

(** ** Order lemmas *)

Lemma lex_compare_refl a : lex_compare a a = Eq.
Proof. induction a as [|x a IH]; simpl; [done|]. by rewrite Z.compare_refl. Qed.

Lemma lex_compare_Eq a b : lex_compare a b = Eq <-> a = b.
Proof.
  split; [|intros ->; apply lex_compare_refl].
  revert b; induction a as [|x a IH]; intros [|y b]; simpl; try done.
  destruct (Z.compare_spec x y) as [->| |]; try done.
  intros Hab. f_equal; auto.
Qed.

Lemma lex_compare_Lt a b : lex_compare a b = Lt <-> lex_lt a b.
Proof.
  split.
  - revert b; induction a as [|x a IH]; intros [|y b]; simpl; try done.
    + intros _. constructor.
    + destruct (Z.compare_spec x y) as [->| |]; try done.
      * intros H. apply lex_lt_next. auto.
      * intros _. by apply lex_lt_here.
  - induction 1 as [y b|x y a b Hxy|x a b _ IH]; simpl; [done| |].
    + by apply Z.compare_lt_iff in Hxy as ->.
    + by rewrite Z.compare_refl.
Qed.

Lemma lex_compare_antisym a b : lex_compare b a = CompOpp (lex_compare a b).
Proof.
  revert b; induction a as [|x a IH]; intros [|y b]; simpl; try done.
  rewrite (Z.compare_antisym x y).
  destruct (x ?= y); simpl; auto.
Qed.

Lemma lex_compare_Gt a b : lex_compare a b = Gt <-> lex_lt b a.
Proof.
  rewrite <- lex_compare_Lt, (lex_compare_antisym a b).
  destruct (lex_compare a b); simpl; split; congruence.
Qed.

Lemma lex_lt_trans a b c : lex_lt a b -> lex_lt b c -> lex_lt a c.
Proof.
  intros Hab; revert c.
  induction Hab as [y b|x y a b Hxy|x a b _ IH]; intros c Hbc;
    inversion Hbc; subst.
  all: try (constructor; lia).
  apply lex_lt_next. auto.
Qed.

Lemma lex_lt_irrefl a : ~ lex_lt a a.
Proof.
  intros H. apply lex_compare_Lt in H. by rewrite lex_compare_refl in H.
Qed.

Lemma leb_of_lex a b :
  leb_of (lex_compare a b) = true <-> ~ lex_lt b a.
Proof.
  rewrite <- lex_compare_Gt.
  destruct (lex_compare a b); simpl; split; congruence.
Qed.

Lemma leb_of_lex_trans a b c :
  leb_of (lex_compare a b) = true -> leb_of (lex_compare b c) = true ->
  leb_of (lex_compare a c) = true.
Proof.
  rewrite !leb_of_lex. intros Hab Hbc Hca.
  destruct (lex_compare a b) eqn:E.
  - apply lex_compare_Eq in E as ->. done.
  - apply lex_compare_Lt in E. apply Hbc. eapply lex_lt_trans; eauto.
  - apply lex_compare_Gt in E. done.
Qed.

Lemma meeting_le_not_after a b : meeting_le a b <-> not_after a b.
Proof. apply leb_of_lex. Qed.

#[global] Instance meeting_le_total : Total meeting_le.
Proof.
  intros a b. unfold meeting_le.
  rewrite (lex_compare_antisym (meeting_key a) (meeting_key b)).
  destruct (lex_compare (meeting_key a) (meeting_key b)); simpl; auto.
Qed.

#[global] Instance meeting_le_trans : Transitive meeting_le.
Proof. intros a b c. apply leb_of_lex_trans. Qed.

#[global] Instance meeting_ge_total : Total meeting_ge.
Proof. intros a b. apply (total meeting_le). Qed.

#[global] Instance meeting_ge_trans : Transitive meeting_ge.
Proof. intros a b c H1 H2. unfold meeting_ge in *. by transitivity b. Qed.

Lemma datetime_ltb_earlier a b : datetime_ltb a b = true <-> earlier a b.
Proof.
  unfold datetime_ltb, earlier, datetime_compare.
  rewrite <- lex_compare_Lt.
  destruct (lex_compare _ _); split; congruence.
Qed.

Lemma date_leb_on_or_before a b : date_leb a b = true <-> on_or_before a b.
Proof.
  unfold date_leb, on_or_before, date_compare.
  destruct (lex_compare (date_fields a) (date_fields b)) eqn:E.
  - apply lex_compare_Eq in E. destruct a, b; simpl in E.
    injection E as -> -> ->. split; auto.
  - apply lex_compare_Lt in E. split; auto.
  - split; [done|]. apply lex_compare_Gt in E. intros [->|H].
    + by apply lex_lt_irrefl in E.
    + destruct (lex_lt_irrefl (date_fields a)). eapply lex_lt_trans; eauto.
Qed.

(** ** The past-check *)

(** C3: the past-check is true exactly when both the date and the time are
    present and their combination is strictly earlier than the clock
    reading; with either of them absent it is false. *)
Theorem reject_if_past_spec (now : datetime) (d : option date) (t : option time) :
  (reject_if_past now d t = true <->
     exists d' t', d = Some d' /\ t = Some t' /\ earlier (combine d' t') now)
  /\ reject_if_past now None t = false
  /\ reject_if_past now d None = false.
Proof.
  split; [|split].
  - destruct d as [d'|], t as [t'|]; simpl.
    + rewrite datetime_ltb_earlier. split.
      * intros H. exists d', t'. auto.
      * intros (? & ? & [= <-] & [= <-] & H). done.
    + split; [done | intros (? & ? & _ & [=] & _)].
    + split; [done | intros (? & ? & [=] & _)].
    + split; [done | intros (? & ? & [=] & _)].
  - done.
  - by destruct d.
Qed.

Lemma reject_if_past_spec_witness :
  reject_if_past (combine (mk_date 2025 11 10) (mk_time 12 0 0 0))
    (Some (mk_date 2025 11 9)) (Some (mk_time 23 59 0 0)) = true
  /\ earlier (combine (mk_date 2025 11 9) (mk_time 23 59 0 0))
       (combine (mk_date 2025 11 10) (mk_time 12 0 0 0)).
Proof.
  split; [reflexivity|].
  destruct (reject_if_past_spec
              (combine (mk_date 2025 11 10) (mk_time 12 0 0 0))
              (Some (mk_date 2025 11 9)) (Some (mk_time 23 59 0 0)))
    as [[Hpast _] _].
  destruct (Hpast eq_refl) as (d' & t' & Hd & Ht & He).
  injection Hd as <-. injection Ht as <-. exact He.
Defined.

(** ** What the handlers do to the store *)

Ltac case_step :=
  match goal with
  | |- context [match ?x with _ => _ end] =>
      lazymatch x with
      | context [match _ with _ => _ end] => fail
      | _ => destruct x eqn:?; simpl in *
      end
  end.

Ltac fmap_inv :=
  repeat match goal with
         | H : _ <$> _ = Ok _ |- _ => apply result_fmap_Ok in H as (? & ? & ->)
         end.

Lemma to_row_Ok st id m row :
  to_row st id m = Ok row ->
  exists d t,
    MeetingObj.date m = Some d /\ MeetingObj.start_time m = Some t /\
    references_ok st (MeetingObj.club_id m) (MeetingObj.room_id m) = true /\
    row = Meeting.mk id d t (MeetingObj.duration_minutes m)
            (MeetingObj.description m) (MeetingObj.club_id m)
            (MeetingObj.room_id m) (MeetingObj.invited_count m)
            (MeetingObj.accepted_count m).
Proof.
  unfold to_row.
  destruct (MeetingObj.date m) as [d|], (MeetingObj.start_time m) as [t|];
    try done.
  destruct (integers_fit m); [|done].
  destruct (references_ok _ _ _); [|done].
  intros [= <-]. eauto 10.
Qed.

Lemma to_row_fits st id m row :
  to_row st id m = Ok row -> integers_fit m = true.
Proof.
  unfold to_row. repeat case_match; done.
Qed.

Lemma to_row_accepts st id m d t :
  MeetingObj.date m = Some d -> MeetingObj.start_time m = Some t ->
  integers_fit m = true ->
  references_ok st (MeetingObj.club_id m) (MeetingObj.room_id m) = true ->
  to_row st id m
  = Ok (Meeting.mk id d t (MeetingObj.duration_minutes m)
          (MeetingObj.description m) (MeetingObj.club_id m)
          (MeetingObj.room_id m) (MeetingObj.invited_count m)
          (MeetingObj.accepted_count m)).
Proof.
  unfold to_row. by intros -> -> -> ->.
Qed.

Lemma to_row_exn st id m e :
  to_row st id m = Raise e -> e = IntegrityError \/ e = OverflowError.
Proof.
  unfold to_row. repeat case_match; intros [= <-]; auto.
Qed.


Lemma insert_meeting_counts m st st' :
  0 <= MeetingObj.invited_count m -> 0 <= MeetingObj.accepted_count m ->
  insert_meeting m st = Ok st' -> counts_nonneg st -> counts_nonneg st'.
Proof.
  intros Hi Ha H Hst. unfold insert_meeting in H.
  apply result_bind_Ok in H as (row & Hrow & [= <-]).
  apply to_row_Ok in Hrow as (d & t & _ & _ & _ & ->).
  unfold counts_nonneg; simpl. apply Forall_app. split; [done|].
  by repeat constructor.
Qed.

Lemma update_meeting_counts id m st st' :
  0 <= MeetingObj.invited_count m -> 0 <= MeetingObj.accepted_count m ->
  update_meeting id m st = Ok st' -> counts_nonneg st -> counts_nonneg st'.
Proof.
  intros Hi Ha H Hst. unfold update_meeting in H.
  apply result_bind_Ok in H as (row & Hrow & [= <-]).
  apply to_row_Ok in Hrow as (d & t & _ & _ & _ & ->).
  unfold counts_nonneg in *; simpl. apply Forall_fmap.
  eapply Forall_impl; [exact Hst|]. intros r Hr; simpl.
  case_decide; simpl; auto.
Qed.

Lemma delete_meeting_counts id st :
  counts_nonneg st -> counts_nonneg (delete_meeting id st).
Proof.
  unfold counts_nonneg; simpl. rewrite !Forall_forall.
  intros H x Hx. apply list_elem_of_filter in Hx as [_ Hx]. auto.
Qed.

Lemma serve_counts_nonneg now r st :
  counts_nonneg st -> counts_nonneg (store_after (serve (dispatch now r) st)).
Proof.
  intros Hst. destruct r; simpl.
  - done.
  - done.
  - done.
  - unfold meetings_create. run. repeat case_step; try done.
    fmap_inv.
    eapply insert_meeting_counts; [| |eassumption|done]; simpl; lia.
  - unfold meetings_edit. run. repeat case_step; done.
  - unfold meetings_update. run. repeat case_step; try done.
    fmap_inv.
    eapply update_meeting_counts; [| |eassumption|done]; simpl; lia.
  - unfold meetings_delete. run. repeat case_step; try done.
    by apply delete_meeting_counts.
  - unfold report. run. repeat case_step; done.
Qed.

Lemma reachable_counts_nonneg st : reachable st -> counts_nonneg st.
Proof.
  induction 1 as [fk|st _ IH|st _ IH|st now r _ IH].
  - constructor.
  - exact IH.
  - unfold init_db. destruct (meetings st) eqn:E; [|exact IH].
    case_step; [|exact IH].
    unfold counts_nonneg, seed_meetings; simpl.
    repeat (constructor; [simpl; lia|]). constructor.
  - by apply serve_counts_nonneg.
Qed.

(** ** The report: arithmetic *)

Lemma Qc_of_Z_eq_0 n : Qc_of_Z n = 0%Qc <-> n = 0.
Proof. rewrite <- Z2Qc_inj_0. apply Z2Qc_inj_iff. Qed.

Lemma py_truediv_Ok a b :
  b <> 0 -> py_truediv a b = Ok (fl (Qc_of_Z a / Qc_of_Z b)).
Proof. intros Hb. unfold py_truediv. by rewrite (proj2 (Z.eqb_neq b 0)). Qed.

Lemma float_truediv_Ok x n :
  n <> 0 -> float_truediv x n = Ok (fl (x / fl (Qc_of_Z n))).
Proof. intros Hn. unfold float_truediv. by rewrite (proj2 (Z.eqb_neq n 0)). Qed.

Lemma len_cons_ne_0 {A} (x : A) l : len (x :: l) <> 0.
Proof. unfold len. simpl. lia. Qed.

(** The three plain averages never fail, and count every row. *)
Lemma avg_of_total f rows : avg_of f rows = Ok (float_mean_column f rows).
Proof.
  destruct rows as [|m rows]; [done|].
  unfold avg_of, float_mean_column.
  rewrite (proj2 (Z.eqb_neq _ 0)) by apply len_cons_ne_0.
  by rewrite py_truediv_Ok by apply len_cons_ne_0.
Qed.

Lemma mapM_result_Ok {A B} (f : A -> result B) (g : A -> B) l :
  Forall (fun x => f x = Ok (g x)) l -> mapM f l = Ok (g <$> l).
Proof.
  induction 1 as [|x l Hx _ IH]; [done|].
  simpl. rewrite Hx. simpl. by rewrite IH.
Qed.

(** The list of rates never fails: its divisors passed the truth test. *)
Lemma rates_total rows :
  rates rows =
  Ok (float_rate <$> filter (fun m => Meeting.invited_count m ≠ 0) rows).
Proof.
  unfold rates. apply mapM_result_Ok, Forall_forall.
  intros m Hm. apply list_elem_of_filter in Hm as [Hm _].
  by apply py_truediv_Ok.
Qed.

Lemma avg_attendance_rate_total rows :
  avg_attendance_rate rows =
  Ok (float_mean
        (float_rate <$> filter (fun m => Meeting.invited_count m ≠ 0) rows)).
Proof.
  unfold avg_attendance_rate. rewrite rates_total. simpl.
  destruct (float_rate <$> _) as [|q qs]; [done|].
  by rewrite float_truediv_Ok by apply len_cons_ne_0.
Qed.

Lemma py_round_0 n : py_round 0%Qc n = 0%Qc.
Proof.
  unfold py_round. cbv zeta.
  change (round_half_even (Qnum 0%Qc * 10 ^ Z.of_nat n) (Z.pos (Qden 0%Qc)))
    with 0.
  rewrite Z2Qc_inj_0. unfold Qcdiv. by rewrite Qcmult_0_l.
Qed.

(** On rows whose counts are not negative the truth test of the code and
    the [> 0] of the specification select the same rows. *)
Lemma filter_invited_nonneg rows :
  Forall (fun m => 0 <= Meeting.invited_count m) rows ->
  filter (fun m => Meeting.invited_count m ≠ 0) rows =
  filter (fun m => 0 < Meeting.invited_count m) rows.
Proof.
  induction 1 as [|m rows Hm _ IH]; [done|].
  rewrite !filter_cons, IH. repeat case_decide; try done; lia.
Qed.

(** ** The report: the handler *)

Lemma optional_parse_date s :
  (if str_truthy s then parse_date s else Ok None) = parse_date s.
Proof. by destruct s as [[|]|]. Qed.

Lemma report_run args st :
  serve (report args) st =
  match parse_date (args !! "date_from"), parse_date (args !! "date_to") with
  | Raise e, _ => (Raise e, mk_ctx st [])
  | Ok _, Raise e => (Raise e, mk_ctx st [])
  | Ok date_from, Ok date_to =>
      let club_id := args_get_int args "club_id" in
      let room_id := args_get_int args "room_id" in
      let rows := report_query club_id room_id date_from date_to st in
      (Ok (Render (report_html (clubs_by_name st) (rooms_by_building_number st)
                     rows
                     (Filters.mk club_id room_id (args !! "date_from")
                        (args !! "date_to"))
                     (Stats.mk
                        (py_round
                           (float_mean_column Meeting.duration_minutes rows) 2)
                        (py_round
                           (float_mean_column Meeting.invited_count rows) 2)
                        (py_round
                           (float_mean_column Meeting.accepted_count rows) 2)
                        (py_round
                           (float_mean
                              (float_rate <$> filter
                                 (fun m => Meeting.invited_count m ≠ 0) rows))
                           3)))),
       mk_ctx st [])
  end.
Proof.
  unfold report. run. rewrite !optional_parse_date.
  destruct (parse_date (args !! "date_from")) as [df|e]; simpl; [|done].
  destruct (parse_date (args !! "date_to")) as [dt|e]; simpl; [|done].
  rewrite !avg_of_total. simpl. rewrite avg_attendance_rate_total. done.
Qed.

Lemma elem_of_id_filter (f : Meeting.t -> Z) (o : option Z)
    (q : list Meeting.t) m :
  m ∈ match o with
      | Some c => if c =? 0 then q else filter (fun m => f m = c) q
      | None => q
      end
  <-> m ∈ q /\ (forall c, o = Some c -> c <> 0 -> f m = c).
Proof.
  destruct o as [c|].
  - destruct (Z.eqb_spec c 0) as [->|Hc].
    + split; [intros H; split; [done|] | by intros [H _]].
      intros c [= <-] Hc. done.
    + rewrite list_elem_of_filter. split.
      * intros [Hm H]. split; [done|]. by intros c' [= <-] _.
      * intros [H Hm]. split; [|done]. by apply Hm.
  - split; [intros H; split; [done|] | by intros [H _]].
    intros c [=].
Qed.

Lemma elem_of_date_filter (P : date -> Meeting.t -> Prop)
    `{Pdec : !forall d m, Decision (P d m)} (o : option date)
    (q : list Meeting.t) m :
  m ∈ match o with
      | Some d => filter (P d) q
      | None => q
      end
  <-> m ∈ q /\ (forall d, o = Some d -> P d m).
Proof.
  destruct o as [d|].
  - rewrite list_elem_of_filter. split.
    + intros [HP Hm]. split; [done|]. by intros d' [= <-].
    + intros [Hm HP]. split; [|done]. by apply HP.
  - split; [intros Hm; split; [done|] | by intros [Hm _]].
    intros d [=].
Qed.

(** The rows of a report are exactly the stored meetings that pass its
    filters. *)
Lemma report_query_elem club room df dt st m :
  m ∈ report_query club room df dt st <->
  m ∈ meetings st /\ in_report club room df dt m.
Proof.
  unfold report_query, order_by_date_time, in_report.
  rewrite merge_sort_Permutation.
  rewrite (elem_of_date_filter
             (fun d m => date_leb (Meeting.date m) d = true)).
  rewrite (elem_of_date_filter
             (fun d m => date_leb d (Meeting.date m) = true)).
  rewrite (elem_of_id_filter Meeting.room_id).
  rewrite (elem_of_id_filter Meeting.club_id).
  setoid_rewrite date_leb_on_or_before. tauto.
Qed.

Lemma report_Ok_inv args st clubs rooms rows filters stats c :
  serve (report args) st
  = (Ok (Render (report_html clubs rooms rows filters stats)), c) ->
  exists date_from date_to,
    parse_date (args !! "date_from") = Ok date_from /\
    parse_date (args !! "date_to") = Ok date_to /\
    rows = report_query (args_get_int args "club_id")
             (args_get_int args "room_id") date_from date_to st /\
    filters = Filters.mk (args_get_int args "club_id")
                (args_get_int args "room_id") (args !! "date_from")
                (args !! "date_to") /\
    stats = Stats.mk
              (py_round (float_mean_column Meeting.duration_minutes rows) 2)
              (py_round (float_mean_column Meeting.invited_count rows) 2)
              (py_round (float_mean_column Meeting.accepted_count rows) 2)
              (py_round
                 (float_mean
                    (float_rate <$> filter
                       (fun m => Meeting.invited_count m ≠ 0) rows)) 3) /\
    c = mk_ctx st [] /\
    clubs = clubs_by_name st /\
    rooms = rooms_by_building_number st.
Proof.
  rewrite report_run.
  destruct (parse_date (args !! "date_from")) as [df|e]; [|done].
  destruct (parse_date (args !! "date_to")) as [dt|e]; [|done].
  simpl. intros [= <- <- <- <- <- <-]. eauto 10.
Qed.

(** [fl] and the binary64 operations of the hardware agree, on the
    quotients of the examples, on an integer that is no float, on a sum. *)
Example fl_binary64_division :
  Binary64.value (PrimFloat.div (Binary64.of_int 1) (Binary64.of_int 80))
  = fl (Qc_of_Z 1 / Qc_of_Z 80)
  /\ Binary64.value (PrimFloat.div (Binary64.of_int 12) (Binary64.of_int 20))
     = fl (Qc_of_Z 12 / Qc_of_Z 20)
  /\ Binary64.value (PrimFloat.div (Binary64.of_int 17) (Binary64.of_int 3))
     = fl (Qc_of_Z 17 / Qc_of_Z 3).
Proof. repeat split; apply Qc_is_canon; vm_compute; reflexivity. Qed.

Example fl_binary64_conversion :
  Binary64.value (Binary64.of_int 9007199254740993)
  = fl (Qc_of_Z 9007199254740993)
  /\ Binary64.value (Binary64.of_int 9007199254740995)
     = fl (Qc_of_Z 9007199254740995).
Proof. repeat split; apply Qc_is_canon; vm_compute; reflexivity. Qed.

Example fl_binary64_sum :
  Binary64.value
    (PrimFloat.add (PrimFloat.div (Binary64.of_int 1) (Binary64.of_int 10))
       (PrimFloat.div (Binary64.of_int 2) (Binary64.of_int 10)))
  = fl (fl (Qc_of_Z 1 / Qc_of_Z 10) + fl (Qc_of_Z 2 / Qc_of_Z 10)).
Proof. apply Qc_is_canon; vm_compute; reflexivity. Qed.

(** [round] works on the number the float denotes: 1/80 as a float is above
    0.0125 and goes up, 2.675 is below and goes down, 0.125 is a tie and
    goes to the even digit. *)
Example py_round_examples :
  py_round (fl (Qc_of_Z 1 / Qc_of_Z 80)) 3 = fl (Qc_of_Z 13 / Qc_of_Z 1000)
  /\ py_round (fl (Qc_of_Z 2675 / Qc_of_Z 1000)) 2
     = fl (Qc_of_Z 267 / Qc_of_Z 100)
  /\ py_round (fl (Qc_of_Z 1 / Qc_of_Z 8)) 2 = fl (Qc_of_Z 12 / Qc_of_Z 100).
Proof. repeat split; apply Qc_is_canon; vm_compute; reflexivity. Qed.

Lemma example_3_10 :
  mean [(Qc_of_Z 12 / Qc_of_Z 20)%Qc; (Qc_of_Z 0 / Qc_of_Z 10)%Qc]
  = Q2Qc (3 # 10)
  /\ float_mean [fl (Qc_of_Z 12 / Qc_of_Z 20); fl (Qc_of_Z 0 / Qc_of_Z 10)]
     = fl (Q2Qc (3 # 10))
  /\ py_round (fl (Q2Qc (3 # 10))) 3 = fl (Q2Qc (3 # 10)).
Proof. repeat split; apply Qc_is_canon; vm_compute; reflexivity. Qed.

Lemma example_columns :
  py_round (fl (Qc_of_Z (sum_Z [20; 0; 10]) / Qc_of_Z 3)) 2 = Qc_of_Z 10
  /\ py_round (fl (Qc_of_Z (sum_Z [12; 5; 0]) / Qc_of_Z 3)) 2
     = fl (Q2Qc (567 # 100)).
Proof. repeat split; apply Qc_is_canon; vm_compute; reflexivity. Qed.

Lemma filter_none_invited (rows : list Meeting.t) :
  (forall m, m ∈ rows -> ~ 0 < Meeting.invited_count m) ->
  filter (fun m => 0 < Meeting.invited_count m) rows = [].
Proof.
  intros Hnone. induction rows as [|m rows IH]; [done|].
  rewrite filter_cons. case_decide as Hm.
  - destruct (Hnone m); [left|done].
  - apply IH. intros m' Hm'. apply Hnone. by right.
Qed.


Lemma serve_all_reachable rs st : reachable st -> reachable (serve_all rs st).
Proof.
  revert st. induction rs as [|r rs IH]; intros st Hst; [done|].
  apply IH. by constructor.
Qed.

Lemma example_store_reachable : reachable example_store.
Proof. apply serve_all_reachable. repeat constructor. Qed.


(** ** Submissions dated in the past *)

(** C2: a create or update submission whose parsed date and time combine to
    a moment strictly before the clock reading persists nothing: the store
    is left as it was, and the response is a redirect to the form the
    submission came from (the new-form for create, the edit-form of the
    meeting for update) with the notice flashed. *)
Theorem past_submission_rejected (now : datetime) (form : Params) (st : Store)
    (d : date) (t : time) :
  parse_date (form !! "date") = Ok (Some d) ->
  parse_time (form !! "start_time") = Some t ->
  earlier (combine d t) now ->
  serve (meetings_create now form) st
  = (Ok (Redirect url_meetings_new),
     mk_ctx st ["Cannot schedule a meeting in the past!"])
  /\ forall id,
       store_after (serve (meetings_update now id form) st) = st
       /\ forall m, get_or_404 id st = Ok m ->
            serve (meetings_update now id form) st
            = (Ok (Redirect (url_meetings_edit id)),
               mk_ctx st ["Cannot schedule a meeting in the past!"]).
Proof.
  intros Hd Ht Hpast. apply datetime_ltb_earlier in Hpast.
  split.
  - unfold meetings_create. run. rewrite Hd. simpl. rewrite Ht, Hpast. done.
  - intros id. unfold meetings_update. run.
    destruct (get_or_404 id st) as [m|e]; simpl.
    + rewrite Hd. simpl. rewrite Ht, Hpast. simpl. split; [done|].
      by intros _ _.
    + split; [done|]. by intros m [=].
Qed.

Lemma past_submission_rejected_witness :
  serve (meetings_create example_now (example_form "2025-10-31" "20" "12"))
    example_store
  = (Ok (Redirect url_meetings_new),
     mk_ctx example_store ["Cannot schedule a meeting in the past!"])
  /\ serve (meetings_update example_now 2
              (example_form "2025-10-31" "20" "12")) example_store
     = (Ok (Redirect (url_meetings_edit 2)),
        mk_ctx example_store ["Cannot schedule a meeting in the past!"]).
Proof.
  assert (He : earlier (combine (mk_date 2025 10 31) (mk_time 18 30 0 0))
                 example_now).
  { apply datetime_ltb_earlier. reflexivity. }
  destruct (past_submission_rejected example_now
              (example_form "2025-10-31" "20" "12") example_store
              (mk_date 2025 10 31) (mk_time 18 30 0 0)
              eq_refl eq_refl He) as [Hc Hu].
  split; [exact Hc|].
  destruct (Hu 2) as [_ Hu2].
  eapply Hu2. vm_compute. reflexivity.
Defined.

(** ** Successful submissions *)

Lemma meetings_create_success now form st c :
  serve (meetings_create now form) st = (Ok (Redirect url_meetings_list), c) ->
  exists d t i a du cl ro,
    parse_date (form !! "date") = Ok (Some d) /\
    parse_time (form !! "start_time") = Some t /\
    py_int_or_0 (form !! "invited_count") = Ok i /\
    py_int_or_0 (form !! "accepted_count") = Ok a /\
    py_int_or_0 (form !! "duration_minutes") = Ok du /\
    py_int (form !! "club_id") = Ok cl /\
    py_int (form !! "room_id") = Ok ro /\
    c = mk_ctx
          (set_meetings
             (meetings st ++
                [Meeting.mk (next_id (Meeting.meeting_id <$> meetings st)) d t
                   du (form !! "description") cl ro (Z.max 0 i) (Z.max 0 a)])
             st)
          ["Meeting created!"].
Proof.
  unfold meetings_create. run. repeat case_step; try done.
  intros [= <-]. fmap_inv.
  match goal with H : insert_meeting _ _ = Ok _ |- _ =>
    unfold insert_meeting in H;
    apply result_bind_Ok in H as (row & Hrow & [= <-]);
    apply to_row_Ok in Hrow as (d & t & Hd & Ht & _ & ->)
  end.
  simpl in Hd, Ht. subst. rewrite Ht. eauto 15.
Qed.

Lemma get_or_404_updated id row (rows : list Meeting.t) st m :
  Meeting.meeting_id row = id ->
  get_or_404 id (set_meetings rows st) = Ok m ->
  get_or_404 id
    (set_meetings
       ((fun r => if decide (Meeting.meeting_id r = id) then row else r)
          <$> rows) st)
  = Ok row.
Proof.
  intros Hid. unfold get_or_404. cbn [meetings set_meetings]. revert m.
  induction rows as [|r rows IH]; intros m; [done|].
  rewrite fmap_cons. cbn [list_find].
  destruct (decide (Meeting.meeting_id r = id)) as [Hr|Hr].
  - rewrite decide_True by done. done.
  - rewrite decide_False by done.
    destruct (list_find _ rows) as [[k m']|]; simpl; [|done].
    intros _. specialize (IH m' eq_refl).
    destruct (list_find _ (_ <$> rows)) as [[k' m'']|]; simpl in *; [|done].
    done.
Qed.

Lemma meetings_update_success now id form st c :
  serve (meetings_update now id form) st
  = (Ok (Redirect url_meetings_list), c) ->
  exists m0 d t i a du cl ro,
    get_or_404 id st = Ok m0 /\
    parse_date (form !! "date") = Ok (Some d) /\
    parse_time (form !! "start_time") = Some t /\
    py_int_or_0 (form !! "invited_count") = Ok i /\
    py_int_or_0 (form !! "accepted_count") = Ok a /\
    py_int_or_0 (form !! "duration_minutes") = Ok du /\
    py_int (form !! "club_id") = Ok cl /\
    py_int (form !! "room_id") = Ok ro /\
    let row := Meeting.mk id d t du (form !! "description") cl ro
                 (Z.max 0 i) (Z.max 0 a) in
    c = mk_ctx
          (set_meetings
             ((fun r => if decide (Meeting.meeting_id r = id) then row else r)
                <$> meetings st) st)
          ["Meeting updated!"].
Proof.
  unfold meetings_update. run. repeat case_step; try done.
  intros [= <-]. fmap_inv.
  match goal with H : update_meeting _ _ _ = Ok _ |- _ =>
    unfold update_meeting in H;
    apply result_bind_Ok in H as (row & Hrow & [= <-]);
    apply to_row_Ok in Hrow as (d & t & Hd & Ht & _ & ->)
  end.
  simpl in Hd, Ht. subst. rewrite Ht. cbv zeta.
  eexists _, _, _, _, _, _, _, _. repeat (split; [eassumption || reflexivity|]).
  reflexivity.
Qed.



(** ** The report: filters and aggregates *)

Lemma parse_date_exn s e : parse_date s = Raise e -> e = ValueError.
Proof.
  destruct s as [[|c s]|]; try done. unfold parse_date. intros H.
  destruct (Strptime.fmt_Ymd (String c s)) as [d|e'] eqn:E; [done|].
  injection H as ->. unfold Strptime.fmt_Ymd in E.
  destruct (Strptime.first_match _) as [[[y m] d]|e'] eqn:Hm; simpl in E.
  - unfold new_date in E. case_match; congruence.
  - injection E as <-.
    unfold Strptime.first_match in Hm. repeat case_match; congruence.
Qed.




(** ** Orderings *)

Lemma StronglySorted_weaken {A} (R1 R2 : relation A) l :
  (forall a b, R1 a b -> R2 a b) -> StronglySorted R1 l -> StronglySorted R2 l.
Proof.
  intros HR. induction 1 as [|x l _ IH Hx]; constructor; [done|].
  eapply Forall_impl; [exact Hx|]. auto.
Qed.

(** C6: the list view shows all the stored meetings newest first, every
    row being no earlier by (date, start_time) than the rows after it; the
    rows of a report come oldest first, every row being no later than the
    rows after it. *)
Theorem listing_orders (st : Store) :
  (exists rows,
     serve meetings_list st
     = (Ok (Render (meetings_list_html rows)), mk_ctx st [])
     /\ rows ≡ₚ meetings st
     /\ StronglySorted (fun a b => not_after b a) rows)
  /\ forall args clubs rooms rows filters stats c,
       serve (report args) st
       = (Ok (Render (report_html clubs rooms rows filters stats)), c) ->
       StronglySorted not_after rows.
Proof.
  split.
  - exists (order_by_date_time_desc (meetings st)).
    split; [done|]. split.
    + apply merge_sort_Permutation.
    + apply (StronglySorted_weaken meeting_ge).
      * intros a b. apply meeting_le_not_after.
      * apply (StronglySorted_merge_sort meeting_ge).
  - intros args clubs rooms rows filters stats c Hrun.
    apply report_Ok_inv in Hrun as (df & dt & _ & _ & -> & _).
    unfold report_query, order_by_date_time.
    apply (StronglySorted_weaken meeting_le).
    + intros a b. apply meeting_le_not_after.
    + apply (StronglySorted_merge_sort meeting_le).
Qed.

Lemma listing_orders_witness :
  StronglySorted not_after
    (report_query None None None None example_store)
  /\ Meeting.meeting_id <$> report_query None None None None example_store
     = [1; 2; 3]
  /\ Meeting.meeting_id <$> order_by_date_time_desc (meetings example_store)
     = [3; 2; 1].
Proof.
  split; [|split; vm_compute; reflexivity].
  destruct (listing_orders example_store) as [_ Hreport].
  eapply (Hreport ∅). rewrite report_run. reflexivity.
Defined.

(** ** Deletion and unknown ids *)

Lemma get_or_404_NotFound id st :
  get_or_404 id st = Raise NotFound <->
  forall r, r ∈ meetings st -> Meeting.meeting_id r <> id.
Proof.
  unfold get_or_404.
  destruct (list_find _ (meetings st)) as [[k r]|] eqn:E.
  - apply list_find_Some in E as (Hk & Hr & _).
    split; [done|]. intros H. destruct (H r); [|done].
    by eapply list_elem_of_lookup_2.
  - split; [|done]. intros _ r Hr Hid.
    apply list_find_None in E. rewrite Forall_forall in E. by apply (E r).
Qed.

Lemma get_or_404_exn id st e : get_or_404 id st = Raise e -> e = NotFound.
Proof. unfold get_or_404. repeat case_match; congruence. Qed.

Lemma elem_of_delete_meeting id st r :
  r ∈ meetings (delete_meeting id st) <->
  r ∈ meetings st /\ Meeting.meeting_id r <> id.
Proof. simpl. rewrite list_elem_of_filter. tauto. Qed.

(** A request to a meeting that is not stored ends in not-found and leaves
    the store as it is. *)
Lemma unknown_id_not_found id st :
  get_or_404 id st = Raise NotFound ->
  serve (meetings_delete id) st = (Raise NotFound, mk_ctx st [])
  /\ forall now form,
       serve (meetings_edit now id) st = (Raise NotFound, mk_ctx st [])
       /\ serve (meetings_update now id form) st = (Raise NotFound, mk_ctx st []).
Proof.
  intros H. unfold meetings_delete, meetings_edit, meetings_update. run.
  by rewrite H.
Qed.

(** Only a create can bring an id into the store. *)
Lemma serve_keeps_unknown now r st id :
  is_create r = false ->
  get_or_404 id st = Raise NotFound ->
  get_or_404 id (store_after (serve (dispatch now r) st)) = Raise NotFound.
Proof.
  intros Hr Hid. destruct r; try done; simpl.
  - unfold meetings_edit. run. by repeat case_step.
  - unfold meetings_update. run. repeat case_step; try done.
    match goal with H : update_meeting _ _ _ = Ok _ |- _ =>
      unfold update_meeting in H;
      apply result_bind_Ok in H as (row & Hrow & [= <-]);
      apply to_row_Ok in Hrow as (d & t & _ & _ & _ & ->)
    end.
    rewrite get_or_404_NotFound in Hid |- *. simpl.
    intros r Hin. apply list_elem_of_fmap in Hin as (r0 & -> & Hr0).
    specialize (Hid r0 Hr0). case_decide; simpl; congruence.
  - unfold meetings_delete. run. repeat case_step; try done.
    rewrite get_or_404_NotFound in Hid |- *.
    intros r Hin. apply elem_of_delete_meeting in Hin as [Hin _]. auto.
  - unfold report. run. by repeat case_step.
Qed.

Lemma serve_all_keeps_unknown rs st id :
  Forall (fun r => is_create r.2 = false) rs ->
  get_or_404 id st = Raise NotFound ->
  get_or_404 id (serve_all rs st) = Raise NotFound.
Proof.
  intros Hrs. revert st.
  induction Hrs as [|r rs Hr _ IH]; intros st Hid; [done|].
  apply IH. by apply serve_keeps_unknown.
Qed.

(** Against C8 as it is worded: the key of a deleted row is free again,
    and a create after the delete of the row with the largest key is given
    that key.  After such a create the list shows a row with the id of the
    deleted meeting, and a second delete on the id succeeds. *)
Lemma deleted_key_reused :
  let st1 := store_after (serve (meetings_delete 3) example_store) in
  let st2 := store_after
               (serve (meetings_create example_now
                         (example_form "2025-11-20" "4" "4")) st1) in
  fst (serve (meetings_delete 3) example_store)
  = Ok (Redirect url_meetings_list)
  /\ get_or_404 3 st1 = Raise NotFound
  /\ Meeting.date <$> get_or_404 3 st2 = Ok (mk_date 2025 11 20)
  /\ fst (serve meetings_list st2)
     = Ok (Render (meetings_list_html (order_by_date_time_desc (meetings st2))))
  /\ 3 ∈ Meeting.meeting_id <$> order_by_date_time_desc (meetings st2)
  /\ fst (serve (meetings_delete 3) st2) = Ok (Redirect url_meetings_list)
  /\ fst (serve (meetings_delete 3) st2) <> Raise NotFound.
Proof.
  intros st1 st2.
  split; [vm_compute; reflexivity|].
  split; [vm_compute; reflexivity|].
  split; [vm_compute; reflexivity|].
  split; [reflexivity|].
  split; [apply (bool_decide_unpack _); by vm_compute|].
  assert (H : fst (serve (meetings_delete 3) st2)
              = Ok (Redirect url_meetings_list)) by (vm_compute; reflexivity).
  split; [exact H|]. rewrite H. discriminate.
Qed.

(** C8, as the code has it: deleting a stored meeting succeeds and takes
    its row out of the store; from then on, for as long as no later create
    is committed, no list view and no report shows a row with that id, and
    a delete, an edit or an update on the id ends in not-found without
    changing the store. *)
Theorem delete_then_not_found (st : Store) (id : Z) (m : Meeting.t) :
  get_or_404 id st = Ok m ->
  serve (meetings_delete id) st
  = (Ok (Redirect url_meetings_list),
     mk_ctx (delete_meeting id st) ["Meeting deleted!"])
  /\ (forall r, r ∈ meetings (delete_meeting id st) <->
                r ∈ meetings st /\ Meeting.meeting_id r <> id)
  /\ forall rs, Forall (fun r => is_create r.2 = false) rs ->
       let st' := serve_all rs (delete_meeting id st) in
       (exists rows,
          serve meetings_list st'
          = (Ok (Render (meetings_list_html rows)), mk_ctx st' [])
          /\ forall r, r ∈ rows -> Meeting.meeting_id r <> id)
       /\ (forall args clubs rooms rows filters stats c,
             serve (report args) st'
             = (Ok (Render (report_html clubs rooms rows filters stats)), c) ->
             forall r, r ∈ rows -> Meeting.meeting_id r <> id)
       /\ serve (meetings_delete id) st' = (Raise NotFound, mk_ctx st' [])
       /\ forall now form,
            serve (meetings_edit now id) st' = (Raise NotFound, mk_ctx st' [])
            /\ serve (meetings_update now id form) st'
               = (Raise NotFound, mk_ctx st' []).
Proof.
  intros Hm. split; [|split].
  - unfold meetings_delete. run. by rewrite Hm.
  - intros r. apply elem_of_delete_meeting.
  - intros rs Hrs st'.
    assert (Hgone : get_or_404 id st' = Raise NotFound).
    { apply serve_all_keeps_unknown; [done|].
      apply get_or_404_NotFound. intros r Hr.
      by apply elem_of_delete_meeting in Hr as [_ Hr]. }
    pose proof Hgone as Hnone. rewrite get_or_404_NotFound in Hnone.
    split; [|split].
    + exists (order_by_date_time_desc (meetings st')). split; [done|].
      intros r Hr. apply Hnone. revert Hr.
      unfold order_by_date_time_desc. by rewrite merge_sort_Permutation.
    + intros args clubs rooms rows filters stats c Hrun r Hr.
      apply report_Ok_inv in Hrun as (df & dt & _ & _ & -> & _).
      apply report_query_elem in Hr as [Hr _]. by apply Hnone.
    + by apply unknown_id_not_found.
Qed.

Lemma delete_then_not_found_witness :
  serve (meetings_delete 2) (delete_meeting 2 example_store)
  = (Raise NotFound, mk_ctx (delete_meeting 2 example_store) [])
  /\ Meeting.meeting_id <$> meetings (delete_meeting 2 example_store) = [1; 3].
Proof.
  split; [|vm_compute; reflexivity].
  assert (Hm : get_or_404 2 example_store
               = Ok (Meeting.mk 2 (mk_date 2025 11 11) (mk_time 18 30 0 0) 60
                       (Some "Weekly meetup") 1 1 0 5))
    by (vm_compute; reflexivity).
  destruct (delete_then_not_found example_store 2 _ Hm) as (_ & _ & Hlater).
  destruct (Hlater [] (Forall_nil_2 _)) as (_ & _ & Hdel & _).
  exact Hdel.
Defined.

(** ** Identifiers in the report query *)

Lemma args_get_int_delete_eq (args : Params) key :
  args_get_int (delete key args) key = None.
Proof. unfold args_get_int. by rewrite lookup_delete_eq. Qed.

Lemma args_get_int_delete_ne (args : Params) key key' :
  key <> key' -> args_get_int (delete key args) key' = args_get_int args key'.
Proof. intros Hne. unfold args_get_int. by rewrite lookup_delete_ne. Qed.

Lemma report_query_club_0 room df dt st :
  report_query (Some 0) room df dt st = report_query None room df dt st.
Proof. done. Qed.

Lemma report_query_room_0 club df dt st :
  report_query club (Some 0) df dt st = report_query club None df dt st.
Proof. done. Qed.

(** C9: a club_id or room_id parameter of the report that reads as 0, or
    that is not a number, is parsed to 0 or to absent, and the query is the
    one with no filter on that column: the report has the same rows and
    the same aggregates as the report without the parameter. *)
Theorem zero_id_is_no_filter (st : Store) (args : Params) (key v : string) :
  args !! key = Some v ->
  PyInt.of_str v = Ok 0 \/ raises (PyInt.of_str v) ->
  (args_get_int args key = None \/ args_get_int args key = Some 0)
  /\ (forall room df dt,
        report_query (args_get_int args key) room df dt st
        = report_query None room df dt st)
  /\ (forall club df dt,
        report_query club (args_get_int args key) df dt st
        = report_query club None df dt st)
  /\ (key = "club_id" \/ key = "room_id" ->
      forall clubs rooms rows filters stats c,
        serve (report args) st
        = (Ok (Render (report_html clubs rooms rows filters stats)), c) ->
        exists filters',
          serve (report (delete key args)) st
          = (Ok (Render (report_html clubs rooms rows filters' stats)), c)).
Proof.
  intros Hv Hzero.
  assert (Hget : args_get_int args key = None \/ args_get_int args key = Some 0).
  { unfold args_get_int. rewrite Hv.
    destruct Hzero as [-> | [e ->]]; auto. }
  split; [done|]. split; [|split].
  - intros room df dt. by destruct Hget as [-> | ->].
  - intros club df dt. by destruct Hget as [-> | ->].
  - intros Hkey clubs rooms rows filters stats c Hrun.
    apply report_Ok_inv in Hrun
      as (df & dt & Hdf & Hdt & -> & _ & -> & -> & -> & ->).
    rewrite report_run.
    destruct Hkey as [-> | ->].
    + rewrite !lookup_delete_ne, Hdf, Hdt by done. cbv zeta.
      rewrite args_get_int_delete_eq, args_get_int_delete_ne by done.
      eexists. by destruct Hget as [-> | ->].
    + rewrite !lookup_delete_ne, Hdf, Hdt by done. cbv zeta.
      rewrite args_get_int_delete_eq, args_get_int_delete_ne by done.
      eexists. by destruct Hget as [-> | ->].
Qed.

Lemma zero_id_is_no_filter_witness :
  (forall room df dt,
     report_query (args_get_int {[ "club_id" := "0" ]} "club_id") room df dt
       example_store
     = report_query None room df dt example_store)
  /\ Meeting.meeting_id
       <$> report_query (args_get_int {[ "club_id" := "0" ]} "club_id")
             None None None example_store
     = [1; 2; 3]
  /\ args_get_int {[ "room_id" := "abc" ]} "room_id" = None.
Proof.
  assert (Hv : ({[ "club_id" := "0" ]} : Params) !! "club_id" = Some "0")
    by (vm_compute; reflexivity).
  destruct (zero_id_is_no_filter example_store {[ "club_id" := "0" ]}
              "club_id" "0" Hv (or_introl eq_refl))
    as (_ & Hclub & _).
  split; [exact Hclub|]. split; vm_compute; reflexivity.
Defined.

(** ** What the parsers accept *)

Ltac digit_cases d H :=
  let Hd := fresh "Hd" in
  assert (Hd : d = 0 \/ d = 1 \/ d = 2 \/ d = 3 \/ d = 4 \/ d = 5 \/ d = 6
               \/ d = 7 \/ d = 8 \/ d = 9) by lia;
  clear H;
  destruct Hd as [->|[->|[->|[->|[->|[->|[->|[->|[->| ->]]]]]]]]].

Lemma digit_of_digit_char d :
  0 <= d <= 9 -> PyInt.digit_of (digit_char d) = Some d.
Proof. intros H. digit_cases d H; reflexivity. Qed.

Lemma digit_char_not_space d :
  0 <= d <= 9 -> Ascii.eqb (digit_char d) " " = false.
Proof. intros H. digit_cases d H; reflexivity. Qed.

Lemma in_range_digit_char lo hi d :
  0 <= d <= 9 ->
  Strptime.in_range lo hi (digit_char d)
  = if (lo <=? d) && (d <=? hi) then Some d else None.
Proof.
  intros H. unfold Strptime.in_range. by rewrite digit_of_digit_char.
Qed.

Lemma two_on_digits lo1 hi1 lo2 hi2 q r rest :
  0 <= q <= 9 -> 0 <= r <= 9 ->
  Strptime.two lo1 hi1 lo2 hi2 (digit_char q :: digit_char r :: rest)
  = if ((lo1 <=? q) && (q <=? hi1)) && ((lo2 <=? r) && (r <=? hi2))
    then [(10 * q + r, rest)] else [].
Proof.
  intros Hq Hr. unfold Strptime.two. rewrite !in_range_digit_char by done.
  destruct ((lo1 <=? q) && (q <=? hi1)), ((lo2 <=? r) && (r <=? hi2)); done.
Qed.

Lemma alt_cons d ds s : Strptime.alt (d :: ds) s = d s ++ Strptime.alt ds s.
Proof. done. Qed.

(** The digits of a number below 100. *)
Lemma two_digits_split n :
  0 <= n <= 99 ->
  0 <= n / 10 <= 9 /\ 0 <= n mod 10 <= 9 /\ 10 * (n / 10) + n mod 10 = n.
Proof.
  intros H. pose proof (Z.div_mod n 10 ltac:(lia)).
  pose proof (Z.mod_pos_bound n 10 ltac:(lia)).
  assert (0 <= n / 10) by (apply Z.div_pos; lia).
  assert (n / 10 < 10) by (apply Z.div_lt_upper_bound; lia).
  lia.
Qed.

Ltac leb_cases :=
  repeat match goal with
         | |- context [?a <=? ?b] => destruct (Z.leb_spec a b)
         end;
  simpl; try lia.

Lemma directive_head_digits (dir : Strptime.directive) lo hi q r rest :
  (dir = Strptime.dir_m /\ lo = 1 /\ hi = 12)
  \/ (dir = Strptime.dir_d /\ lo = 1 /\ hi = 31)
  \/ (dir = Strptime.dir_H /\ lo = 0 /\ hi = 23)
  \/ (dir = Strptime.dir_M /\ lo = 0 /\ hi = 59)
  \/ (dir = Strptime.dir_S /\ lo = 0 /\ hi = 59) ->
  0 <= q <= 9 -> 0 <= r <= 9 -> lo <= 10 * q + r <= hi ->
  head (dir (digit_char q :: digit_char r :: rest)) = Some (10 * q + r, rest).
Proof.
  intros Hdir Hq Hr Hn.
  destruct Hdir as [(-> & -> & ->)|[(-> & -> & ->)|[(-> & -> & ->)
                   |[(-> & -> & ->)|(-> & -> & ->)]]]];
    unfold Strptime.dir_m, Strptime.dir_d, Strptime.dir_H, Strptime.dir_M,
      Strptime.dir_S;
    rewrite !alt_cons, !two_on_digits by done;
    digit_cases q Hq; simpl; try lia; leb_cases; try reflexivity.
Qed.

(** The first match of a directive on a zero-padded number that is in its
    range. *)
Lemma directive_head (dir : Strptime.directive) lo hi n rest :
  (dir = Strptime.dir_m /\ lo = 1 /\ hi = 12)
  \/ (dir = Strptime.dir_d /\ lo = 1 /\ hi = 31)
  \/ (dir = Strptime.dir_H /\ lo = 0 /\ hi = 23)
  \/ (dir = Strptime.dir_M /\ lo = 0 /\ hi = 59)
  \/ (dir = Strptime.dir_S /\ lo = 0 /\ hi = 59) ->
  lo <= n <= hi ->
  head (dir (two_digits n ++ rest)) = Some (n, rest).
Proof.
  intros Hdir Hn.
  assert (0 <= n <= 99) as Hn99
    by (destruct Hdir as [(_ & -> & ->)|[(_ & -> & ->)|[(_ & -> & ->)
                         |[(_ & -> & ->)|(_ & -> & ->)]]]]; lia).
  destruct (two_digits_split n Hn99) as (Hq & Hr & Hqr).
  unfold two_digits. simpl app.
  replace (Some (n, rest)) with (Some (10 * (n / 10) + n mod 10, rest))
    by (by rewrite Hqr).
  eapply directive_head_digits; eauto. lia.
Qed.

Lemma list_bind_singleton {A B} (x : A) (f : A -> list B) : [x] ≫= f = f x.
Proof. simpl. apply app_nil_r. Qed.

Lemma dir_Y_on_digits y rest :
  0 <= y <= 9999 -> Strptime.dir_Y (four_digits y ++ rest) = [(y, rest)].
Proof.
  intros Hy. unfold Strptime.dir_Y, four_digits.
  assert (0 <= y / 100 <= 99).
  { split; [apply Z.div_pos; lia | ].
    assert (y / 100 < 100) by (apply Z.div_lt_upper_bound; lia). lia. }
  pose proof (Z.mod_pos_bound y 100 ltac:(lia)).
  destruct (two_digits_split (y / 100)) as (Hq1 & Hr1 & Hhi); [lia|].
  destruct (two_digits_split (y mod 100)) as (Hq2 & Hr2 & Hlo); [lia|].
  unfold two_digits. simpl app.
  rewrite (two_on_digits 0 9 0 9 _ _ _ Hq1 Hr1).
  replace ((0 <=? y / 100 / 10) && (y / 100 / 10 <=? 9)
           && ((0 <=? (y / 100) mod 10) && ((y / 100) mod 10 <=? 9)))
    with true by (symmetry; rewrite !andb_true_iff, !Z.leb_le; lia).
  rewrite list_bind_singleton. cbv beta iota.
  rewrite (two_on_digits 0 9 0 9 _ _ _ Hq2 Hr2).
  replace ((0 <=? y mod 100 / 10) && (y mod 100 / 10 <=? 9)
           && ((0 <=? (y mod 100) mod 10) && ((y mod 100) mod 10 <=? 9)))
    with true by (symmetry; rewrite !andb_true_iff, !Z.leb_le; lia).
  rewrite list_bind_singleton. cbv beta iota. rewrite Hhi, Hlo.
  by rewrite <- (Z.div_mod y 100) by lia.
Qed.

Lemma head_bind {A B} (ms : list A) (f : A -> list B) x y :
  head ms = Some x -> head (f x) = Some y -> head (ms ≫= f) = Some y.
Proof.
  destruct ms as [|x' tl]; [done|]. intros [= ->] Hy.
  change ((x :: tl) ≫= f) with (f x ++ (tl ≫= f)).
  by destruct (f x).
Qed.

Lemma first_match_head {A} (ms : list (A * list ascii)) v :
  head ms = Some (v, []) -> Strptime.first_match ms = Ok v.
Proof. by destruct ms as [|[v' [|c s]] tl]; intros [= ->]. Qed.

Lemma first_match_leftover {A} (ms : list (A * list ascii)) v c s :
  head ms = Some (v, c :: s) -> Strptime.first_match ms = Raise ValueError.
Proof. by destruct ms as [|[v' [|c' s']] tl]; intros [=]. Qed.

Lemma lit_head c rest : head (Strptime.lit c (c :: rest)) = Some rest.
Proof. unfold Strptime.lit. by rewrite Ascii.eqb_refl. Qed.

Lemma days_in_month_bounds y m : 28 <= days_in_month y m <= 31.
Proof. unfold days_in_month. repeat case_match; lia. Qed.

Lemma new_date_Ok y m d r :
  new_date y m d = Ok r <-> r = mk_date y m d /\ valid_date (mk_date y m d).
Proof.
  unfold new_date, valid_date. simpl.
  destruct (_ && _) eqn:E.
  - rewrite !andb_true_iff, !Z.leb_le in E.
    split; [intros [= <-]; split; [done|lia] | by intros [-> _]].
  - split; [done|]. intros [_ H].
    rewrite <- not_true_iff_false in E. destruct E.
    rewrite !andb_true_iff, !Z.leb_le. lia.
Qed.

Lemma parse_date_nonempty c s :
  parse_date (Some (String c s)) = Some <$> Strptime.fmt_Ymd (String c s).
Proof. done. Qed.

Lemma is_space_white_space c : PyInt.is_space c = true -> white_space c.
Proof.
  destruct c as [[] [] [] [] [] [] [] []]; vm_compute; try discriminate;
    intros _;
    repeat first [apply list_elem_of_here | apply list_elem_of_further].
Qed.

Lemma digit_of_ascii_digit c d : PyInt.digit_of c = Some d -> digit_value c d.
Proof.
  destruct c as [[] [] [] [] [] [] [] []]; intros H; vm_compute in H;
    try discriminate H; injection H as <-; (split; [lia | reflexivity]).
Qed.

Lemma digit_value_ascii_digit c d : digit_value c d -> ascii_digit c.
Proof.
  intros [Hd ->]. unfold ascii_digit.
  assert (d = 0 \/ d = 1 \/ d = 2 \/ d = 3 \/ d = 4 \/ d = 5 \/ d = 6 \/ d = 7 \/ d = 8 \/ d = 9) as H by lia.
  repeat destruct H as [->|H]; try subst d;
  repeat first [apply list_elem_of_here | apply list_elem_of_further].
Qed.

Lemma lstrip_split l :
  exists pre, l = pre ++ PyInt.lstrip l /\ Forall white_space pre.
Proof.
  induction l as [|c l (pre & IH & Hpre)]; [by exists []|].
  simpl. destruct (PyInt.is_space c) eqn:E.
  - exists (c :: pre). split; [by rewrite IH at 1|].
    constructor; [by apply is_space_white_space|done].
  - by exists [].
Qed.

Lemma strip_split l :
  exists pre post,
    l = pre ++ PyInt.strip l ++ post
    /\ Forall white_space pre /\ Forall white_space post.
Proof.
  destruct (lstrip_split l) as (pre & Hl & Hpre).
  destruct (lstrip_split (rev (PyInt.lstrip l))) as (post & Hr & Hpost).
  exists pre, (rev post). split; [|split; [done|by apply Forall_rev]].
  unfold PyInt.strip. rewrite <- rev_app_distr, <- Hr, rev_involutive. done.
Qed.

Lemma signed_split l neg ds :
  PyInt.signed l = (neg, ds) ->
  exists sign, l = sign ++ ds
               /\ (sign = [] \/ sign = ["+"%char] \/ sign = ["-"%char]).
Proof.
  unfold PyInt.signed. destruct l as [|c r];
    [intros [= <- <-]; exists []; split; [done|auto]|].
  destruct (Ascii.eqb_spec c "-") as [->|_];
    [intros [= <- <-]; exists ["-"%char]; split; [done|auto]|].
  destruct (Ascii.eqb_spec c "+") as [->|_];
    [intros [= <- <-]; exists ["+"%char]; split; [done|auto]|].
  intros [= <- <-]. exists []. split; [done|auto].
Qed.

Lemma digits_digit_group s : forall acc n,
  (PyInt.digits acc true s = Some n -> digit_group s)
  /\ (PyInt.digits acc false s = Some n ->
      s = [] \/ digit_group s \/ exists s', s = "_"%char :: s' /\ digit_group s').
Proof.
  induction s as [|c s IH]; intros acc n.
  - split; [done|auto].
  - simpl. destruct (Ascii.eqb_spec c "_") as [->|_].
    + split; [done|]. intros H. apply IH in H. eauto.
    + destruct (PyInt.digit_of c) as [d|] eqn:Hd; [|done].
      apply digit_of_ascii_digit, digit_value_ascii_digit in Hd.
      assert (H : PyInt.digits (10 * acc + d) false s = Some n -> digit_group (c :: s)).
      { intros H. apply IH in H as [->|[H|(s' & -> & H)]].
        - by constructor.
        - by apply digit_group_more.
        - by apply digit_group_underscore. }
      split; [done|]. intros H'. right. left. by apply H.
Qed.

Lemma of_str_int_literal s z : PyInt.of_str s = Ok z -> int_literal s.
Proof.
  unfold PyInt.of_str.
  destruct (PyInt.signed _) as [neg ds] eqn:Hsigned.
  destruct (PyInt.digits 0 true ds) as [n|] eqn:Hdigits; [|done]. intros _.
  destruct (strip_split (list_ascii_of_string s)) as (pre & post & Hs & Hpre & Hpost).
  apply signed_split in Hsigned as (sign & Hsign & Hcases).
  apply digits_digit_group in Hdigits.
  exists pre, sign, ds, post. rewrite Hs at 1. rewrite Hsign, <- !app_assoc. done.
Qed.

Lemma first_match_elem {A} (ms : list (A * list ascii)) v :
  Strptime.first_match ms = Ok v -> (v, []) ∈ ms.
Proof.
  destruct ms as [|[v' [|c s]] tl]; try done. intros [= ->]. by left.
Qed.

Lemma in_range_digit lo hi c d :
  Strptime.in_range lo hi c = Some d -> digit_value c d /\ lo <= d <= hi.
Proof.
  unfold Strptime.in_range. destruct (PyInt.digit_of c) as [d'|] eqn:E; [|done].
  destruct (_ && _) eqn:Hr; [|done]. intros [= <-].
  apply digit_of_ascii_digit in E. split; [done|].
  apply andb_true_iff in Hr as [H1 H2]. lia.
Qed.

Lemma one_elem lo hi s v r :
  (v, r) ∈ Strptime.one lo hi s ->
  exists c, s = c :: r /\ digit_value c v /\ lo <= v <= hi.
Proof.
  unfold Strptime.one. destruct s as [|c s]; [by intros ?%not_elem_of_nil|].
  destruct (Strptime.in_range lo hi c) as [d|] eqn:E; [|by intros ?%not_elem_of_nil].
  intros [= -> ->]%list_elem_of_singleton.
  apply in_range_digit in E as [H1 H2]. eauto.
Qed.

Lemma two_elem lo1 hi1 lo2 hi2 s v r :
  (v, r) ∈ Strptime.two lo1 hi1 lo2 hi2 s ->
  exists c1 c2 d1 d2,
    s = c1 :: c2 :: r /\ digit_value c1 d1 /\ digit_value c2 d2
    /\ v = 10 * d1 + d2 /\ lo1 <= d1 <= hi1 /\ lo2 <= d2 <= hi2.
Proof.
  unfold Strptime.two. destruct s as [|c1 [|c2 s]]; try by intros ?%not_elem_of_nil.
  destruct (Strptime.in_range lo1 hi1 c1) as [d1|] eqn:E1;
    [|by intros ?%not_elem_of_nil].
  destruct (Strptime.in_range lo2 hi2 c2) as [d2|] eqn:E2;
    [|by intros ?%not_elem_of_nil].
  intros [= -> ->]%list_elem_of_singleton.
  apply in_range_digit in E1 as [? ?], E2 as [? ?].
  exists c1, c2, d1, d2. done.
Qed.

Lemma padded_elem lo hi s v r :
  (v, r) ∈ Strptime.padded lo hi s ->
  exists c, s = " "%char :: c :: r /\ digit_value c v.
Proof.
  unfold Strptime.padded. destruct s as [|c s]; [by intros ?%not_elem_of_nil|].
  destruct (Ascii.eqb_spec c " ") as [->|_]; [|by intros ?%not_elem_of_nil].
  intros (c' & -> & H & _)%one_elem. eauto.
Qed.

Lemma lit_elem c s r : r ∈ Strptime.lit c s -> s = c :: r.
Proof.
  unfold Strptime.lit. destruct s as [|c' s]; [by intros ?%not_elem_of_nil|].
  destruct (Ascii.eqb_spec c c') as [->|_]; [|by intros ?%not_elem_of_nil].
  by intros ->%list_elem_of_singleton.
Qed.

Lemma numeral_two c1 c2 d1 d2 :
  digit_value c1 d1 -> digit_value c2 d2 -> numeral [c1; c2] (10 * d1 + d2).
Proof. intros H1 H2. apply (numeral_snoc [c1]); [by constructor|done]. Qed.

Lemma dir_Y_elem s v r :
  (v, r) ∈ Strptime.dir_Y s ->
  exists ys, s = ys ++ r /\ length ys = 4%nat /\ numeral ys v.
Proof.
  unfold Strptime.dir_Y. intros ([hi s1] & H & H1)%list_elem_of_bind.
  apply list_elem_of_bind in H as ([lo s2] & H & H2).
  apply list_elem_of_singleton in H as [= -> ->].
  apply two_elem in H1 as (c1 & c2 & d1 & d2 & -> & V1 & V2 & -> & _).
  apply two_elem in H2 as (c3 & c4 & d3 & d4 & -> & V3 & V4 & -> & _).
  exists [c1; c2; c3; c4]. split; [done|]. split; [done|].
  replace (100 * (10 * d1 + d2) + (10 * d3 + d4))
    with (10 * (10 * (10 * d1 + d2) + d3) + d4) by lia.
  apply (numeral_snoc [c1; c2; c3]); [|done].
  apply (numeral_snoc [c1; c2]); [|done]. by apply numeral_two.
Qed.

Lemma alt_elem ds s x : x ∈ Strptime.alt ds s -> exists d, d ∈ ds /\ x ∈ d s.
Proof. unfold Strptime.alt. intros (d & H1 & H2)%list_elem_of_bind. eauto. Qed.

Ltac alt_cases H :=
  apply alt_elem in H as (? & Hd & H);
  repeat (apply elem_of_cons in Hd as [->|Hd]);
  [..|by apply not_elem_of_nil in Hd].

Lemma dir_m_elem s v r :
  (v, r) ∈ Strptime.dir_m s ->
  exists ms, s = ms ++ r /\ (length ms <= 2)%nat /\ numeral ms v.
Proof.
  unfold Strptime.dir_m. intros H. alt_cases H.
  - apply two_elem in H as (c1 & c2 & d1 & d2 & -> & V1 & V2 & -> & _).
    exists [c1; c2]. split; [done|]. split; [simpl; lia|]. by apply numeral_two.
  - apply two_elem in H as (c1 & c2 & d1 & d2 & -> & V1 & V2 & -> & _).
    exists [c1; c2]. split; [done|]. split; [simpl; lia|]. by apply numeral_two.
  - apply one_elem in H as (c & -> & V & _).
    exists [c]. split; [done|]. split; [simpl; lia|]. by constructor.
Qed.

Lemma dir_d_elem s v r :
  (v, r) ∈ Strptime.dir_d s ->
  exists ds, s = ds ++ r
    /\ ((length ds <= 2)%nat /\ numeral ds v
        \/ exists c, ds = [" "%char; c] /\ numeral [c] v).
Proof.
  unfold Strptime.dir_d. intros H. alt_cases H.
  1-3: apply two_elem in H as (c1 & c2 & d1 & d2 & -> & V1 & V2 & -> & _);
    exists [c1; c2]; split; [done|]; left; split; [simpl; lia|];
    by apply numeral_two.
  - apply one_elem in H as (c & -> & V & _).
    exists [c]. split; [done|]. left. split; [simpl; lia|]. by constructor.
  - apply padded_elem in H as (c & -> & V).
    exists [" "%char; c]. split; [done|]. right. exists c. split; [done|].
    by constructor.
Qed.

Lemma fmt_Ymd_date_written s d : Strptime.fmt_Ymd s = Ok d -> date_written s d.
Proof.
  unfold Strptime.fmt_Ymd. intros ([[y m] dd] & Hmatch & Hdate)%result_bind_Ok.
  apply new_date_Ok in Hdate as [-> Hvalid].
  apply first_match_elem in Hmatch.
  apply list_elem_of_bind in Hmatch as ([y' s1] & H & Hy).
  apply list_elem_of_bind in H as (s2 & H & H1).
  apply list_elem_of_bind in H as ([m' s3] & H & Hm).
  apply list_elem_of_bind in H as (s4 & H & H2).
  apply list_elem_of_bind in H as ([d' s5] & H & Hd).
  apply list_elem_of_singleton in H as [= <- <- <- <-].
  apply dir_Y_elem in Hy as (ys & Hs & Hlen & Hys).
  apply lit_elem in H1 as ->.
  apply dir_m_elem in Hm as (ms & -> & Hmlen & Hms).
  apply lit_elem in H2 as ->.
  apply dir_d_elem in Hd as (ds & -> & Hds).
  exists ys, ms, ds. rewrite app_nil_r in Hs. done.
Qed.

Lemma parse_date_date_written s d :
  parse_date (Some s) = Ok (Some d) -> date_written s d.
Proof.
  destruct s as [|c s]; [done|]. rewrite parse_date_nonempty.
  intros (d' & H & [= <-])%result_fmap_Ok. by apply fmt_Ymd_date_written.
Qed.

Lemma numeral_nil v : ~ numeral [] v.
Proof. intros H. inversion H as [|cs ? ? ? ? ? E]. by destruct cs. Qed.

Lemma numeral_snoc_inv cs c v :
  numeral (cs ++ [c]) v ->
  (cs = [] /\ digit_value c v)
  \/ exists v' d, numeral cs v' /\ digit_value c d /\ v = 10 * v' + d.
Proof.
  intros H. inversion H as [c0 d0 Hd E|cs0 v0 c0 d0 Hcs Hd E]; subst.
  - left. destruct cs as [|? [|]]; try done. by injection E as ->.
  - right. apply app_inj_tail in E as [-> ->]. eauto.
Qed.

Lemma numeral_one_inv c v : numeral [c] v -> digit_value c v.
Proof.
  intros H. apply (numeral_snoc_inv []) in H as [[_ H]|(v' & d & H & _)];
    [done|]. by apply numeral_nil in H.
Qed.

Lemma numeral_two_inv c1 c2 v :
  numeral [c1; c2] v ->
  exists d1 d2, digit_value c1 d1 /\ digit_value c2 d2 /\ v = 10 * d1 + d2.
Proof.
  intros H. apply (numeral_snoc_inv [c1]) in H as [[? _]|(v' & d & H & ? & ->)];
    [done|]. apply numeral_one_inv in H. eauto.
Qed.

Lemma numeral_four_inv c1 c2 c3 c4 v :
  numeral [c1; c2; c3; c4] v ->
  exists d1 d2 d3 d4,
    digit_value c1 d1 /\ digit_value c2 d2 /\ digit_value c3 d3
    /\ digit_value c4 d4 /\ v = 100 * (10 * d1 + d2) + (10 * d3 + d4).
Proof.
  intros H.
  apply (numeral_snoc_inv [c1; c2; c3]) in H as [[? _]|(v3 & d4 & H & ? & ->)];
    [done|].
  apply (numeral_snoc_inv [c1; c2]) in H as [[? _]|(v2 & d3 & H & ? & ->)];
    [done|].
  apply numeral_two_inv in H as (d1 & d2 & ? & ? & ->).
  exists d1, d2, d3, d4.
  split; [done|]. split; [done|]. split; [done|]. split; [done|]. lia.
Qed.

Lemma dir_Y_head c1 c2 c3 c4 v rest :
  numeral [c1; c2; c3; c4] v ->
  Strptime.dir_Y (c1 :: c2 :: c3 :: c4 :: rest) = [(v, rest)].
Proof.
  intros (d1 & d2 & d3 & d4 & [H1 ->] & [H2 ->] & [H3 ->] & [H4 ->] & ->)
    %numeral_four_inv.
  unfold Strptime.dir_Y.
  rewrite (two_on_digits 0 9 0 9 _ _ _ H1 H2).
  replace ((0 <=? d1) && (d1 <=? 9) && ((0 <=? d2) && (d2 <=? 9)))
    with true by (symmetry; rewrite !andb_true_iff, !Z.leb_le; lia).
  rewrite list_bind_singleton. cbv beta iota.
  rewrite (two_on_digits 0 9 0 9 _ _ _ H3 H4).
  replace ((0 <=? d3) && (d3 <=? 9) && ((0 <=? d4) && (d4 <=? 9)))
    with true by (symmetry; rewrite !andb_true_iff, !Z.leb_le; lia).
  by rewrite list_bind_singleton.
Qed.

Lemma one_on_digit lo hi d rest :
  0 <= d <= 9 -> lo <= d <= hi ->
  Strptime.one lo hi (digit_char d :: rest) = [(d, rest)].
Proof.
  intros Hd Hr. unfold Strptime.one. rewrite in_range_digit_char by done.
  replace ((lo <=? d) && (d <=? hi)) with true
    by (symmetry; rewrite !andb_true_iff, !Z.leb_le; lia).
  done.
Qed.

(** A month of one or two digits, before a ["-"]. *)
Lemma dir_m_head ms v rest :
  (length ms <= 2)%nat -> numeral ms v -> 1 <= v <= 12 ->
  head (Strptime.dir_m (ms ++ "-"%char :: rest)) = Some (v, "-"%char :: rest).
Proof.
  intros Hlen Hms Hv. destruct ms as [|c1 [|c2 [|]]]; simpl in Hlen; try lia.
  - by apply numeral_nil in Hms.
  - apply numeral_one_inv in Hms as [Hd ->].
    change ([digit_char v] ++ "-"%char :: rest)
      with (digit_char v :: "-"%char :: rest).
    unfold Strptime.dir_m. rewrite !alt_cons.
    assert (Hno : forall lo1 hi1 lo2 hi2,
              Strptime.two lo1 hi1 lo2 hi2
                (digit_char v :: "-"%char :: rest) = []).
    { intros. unfold Strptime.two.
      by destruct (Strptime.in_range lo1 hi1 (digit_char v)). }
    rewrite !Hno, !app_nil_l, one_on_digit by lia. done.
  - apply numeral_two_inv in Hms as (d1 & d2 & [H1 ->] & [H2 ->] & ->).
    change ([digit_char d1; digit_char d2] ++ "-"%char :: rest)
      with (digit_char d1 :: digit_char d2 :: "-"%char :: rest).
    apply (directive_head_digits Strptime.dir_m 1 12); auto.
Qed.

(** A day of one or two digits, or a space and one digit, at the end. *)
Lemma dir_d_head ds v :
  (length ds <= 2)%nat /\ numeral ds v
  \/ (exists c, ds = [" "%char; c] /\ numeral [c] v) ->
  1 <= v <= 31 ->
  head (Strptime.dir_d ds) = Some (v, []).
Proof.
  intros [[Hlen Hds]|(c & -> & Hc)] Hv.
  - destruct ds as [|c1 [|c2 [|]]]; simpl in Hlen; try lia.
    + by apply numeral_nil in Hds.
    + apply numeral_one_inv in Hds as [Hd ->].
      unfold Strptime.dir_d. rewrite !alt_cons.
      assert (Hno : forall lo1 hi1 lo2 hi2,
                Strptime.two lo1 hi1 lo2 hi2 [digit_char v] = [])
        by reflexivity.
      rewrite !Hno, !app_nil_l, one_on_digit by lia. done.
    + apply numeral_two_inv in Hds as (d1 & d2 & [H1 ->] & [H2 ->] & ->).
      apply (directive_head_digits Strptime.dir_d 1 31); auto.
  - apply numeral_one_inv in Hc as [Hd ->].
    unfold Strptime.dir_d. rewrite !alt_cons.
    assert (Hno : forall lo1 hi1 lo2 hi2,
              Strptime.two lo1 hi1 lo2 hi2 [" "%char; digit_char v] = []).
    { intros. reflexivity. }
    rewrite !Hno, !app_nil_l.
    change (Strptime.one 1 9 [" "%char; digit_char v])
      with (@nil (Z * list ascii)).
    change (Strptime.padded 1 9 [" "%char; digit_char v])
      with (Strptime.one 1 9 [digit_char v]).
    rewrite one_on_digit by lia. done.
Qed.

Lemma date_written_fmt_Ymd s d : date_written s d -> Strptime.fmt_Ymd s = Ok d.
Proof.
  intros (ys & ms & ds & Hs & Hylen & Hys & Hmlen & Hms & Hds & Hvalid).
  pose proof Hvalid as (Hy & Hm & Hd).
  pose proof (days_in_month_bounds (year d) (month d)).
  destruct ys as [|c1 [|c2 [|c3 [|c4 [|]]]]]; try done.
  unfold Strptime.fmt_Ymd. rewrite Hs.
  rewrite (first_match_head _ (year d, month d, day d)).
  - simpl. apply new_date_Ok. by destruct d.
  - change ([c1; c2; c3; c4] ++ "-"%char :: ms ++ "-"%char :: ds)
      with (c1 :: c2 :: c3 :: c4 :: "-"%char :: ms ++ "-"%char :: ds).
    eapply head_bind; [rewrite (dir_Y_head _ _ _ _ _ _ Hys); reflexivity|].
    cbv beta iota.
    eapply head_bind; [apply lit_head|].
    eapply head_bind; [by apply dir_m_head|]. cbv beta iota.
    eapply head_bind; [apply lit_head|].
    eapply head_bind; [apply dir_d_head; [exact Hds|lia]|].
    reflexivity.
Qed.

Lemma date_written_parse_date s d :
  date_written s d -> parse_date (Some s) = Ok (Some d).
Proof.
  intros H. pose proof (date_written_fmt_Ymd s d H) as Hfmt.
  destruct s as [|c s].
  - destruct H as (ys & ms & ds & Hs & _). by destruct ys.
  - by rewrite parse_date_nonempty, Hfmt.
Qed.

(** ** Malformed fields *)

Lemma of_str_exn s e : PyInt.of_str s = Raise e -> e = ValueError.
Proof. unfold PyInt.of_str. repeat case_match; congruence. Qed.

Lemma py_int_or_0_exn x e : py_int_or_0 x = Raise e -> e = ValueError.
Proof. destruct x as [[|]|]; try done. apply of_str_exn. Qed.

Lemma py_int_exn x e : py_int x = Raise e -> e = ValueError \/ e = TypeError.
Proof.
  destruct x as [s|]; simpl.
  - intros H. left. by apply of_str_exn in H.
  - intros [= <-]. by right.
Qed.

Lemma non_numeric_raises x :
  non_numeric x -> raises (py_int_or_0 x) /\ raises (py_int x).
Proof.
  intros (s & -> & Hs & _ & Hlit).
  assert (Hint : PyInt.of_str s = Raise ValueError).
  { destruct (PyInt.of_str s) as [z|e] eqn:E.
    - by apply of_str_int_literal in E.
    - by apply of_str_exn in E as ->. }
  unfold raises. simpl. rewrite Hint. destruct s; [done|]. eauto.
Qed.

Lemma malformed_date_raises x :
  malformed_date x -> parse_date x = Raise ValueError.
Proof.
  intros (s & -> & Hs & _ & Hdate).
  destruct (parse_date (Some s)) as [[d|]|e] eqn:E.
  - destruct Hdate. exists d. by apply parse_date_date_written.
  - destruct s as [|c s]; [done|]. rewrite parse_date_nonempty in E.
    by destruct (Strptime.fmt_Ymd _).
  - by apply parse_date_exn in E as ->.
Qed.

(** A literal starts with white space, a sign or a digit; a date written
    out has its first ["-"] after four characters. *)
Lemma int_literal_head s :
  int_literal s ->
  exists c r, list_ascii_of_string s = c :: r
              /\ (white_space c \/ c = "+"%char \/ c = "-"%char
                  \/ ascii_digit c).
Proof.
  intros (pre & sign & body & post & -> & Hpre & _ & Hsign & Hbody).
  destruct Hpre as [|c pre Hc _]; [|simpl; eauto 10].
  destruct Hsign as [->|[->| ->]]; [|simpl; eauto 10..].
  destruct Hbody; simpl; eauto 10.
Qed.

Lemma date_written_dash s d :
  date_written s d -> list_ascii_of_string s !! 4%nat = Some "-"%char.
Proof.
  intros (ys & ms & ds & -> & Hlen & _).
  by rewrite lookup_app_r, Hlen by lia.
Qed.

Lemma abc_non_numeric : non_numeric (Some "abc"%string).
Proof.
  exists "abc"%string. split; [done|]. split; [done|]. split.
  - unfold is_ascii. simpl. repeat constructor.
  - intros (c & r & [= <- _] & H)%int_literal_head.
    destruct H as [H|[H|[H|H]]]; try discriminate H;
      repeat (apply elem_of_cons in H as [H|H]; [discriminate H|]);
      by apply not_elem_of_nil in H.
Qed.

Lemma slashes_malformed_date : malformed_date (Some "11/10/2025"%string).
Proof.
  exists "11/10/2025"%string. split; [done|]. split; [done|]. split.
  - unfold is_ascii. simpl. repeat constructor.
  - intros (d & H%date_written_dash). discriminate H.
Qed.



Ltac exn_inv :=
  repeat match goal with
         | H : _ <$> ?m = Raise _ |- _ =>
             destruct m eqn:?; simpl in H; [discriminate H|]; injection H as <-
         | H : py_int_or_0 _ = Raise _ |- _ => apply py_int_or_0_exn in H as ->
         | H : py_int _ = Raise _ |- _ => apply py_int_exn in H as [-> | ->]
         end.

Lemma create_fields_raise now form st d :
  parse_date (form !! "date") = Ok d ->
  reject_if_past now d (parse_time (form !! "start_time")) = false ->
  some_field_raises form ->
  exists e, serve (meetings_create now form) st = (Raise e, mk_ctx st [])
            /\ (e = ValueError \/ e = TypeError).
Proof.
  intros Hd Hrej Hbad. unfold meetings_create. run. rewrite Hd. simpl.
  rewrite Hrej.
  destruct Hbad as [[e H]|[[e H]|[[e H]|[[e H]|[e H]]]]];
    repeat case_step; fmap_inv; try congruence; exn_inv; eauto.
Qed.

Lemma update_fields_raise now id form st m d :
  get_or_404 id st = Ok m ->
  parse_date (form !! "date") = Ok d ->
  reject_if_past now d (parse_time (form !! "start_time")) = false ->
  some_field_raises form ->
  exists e, serve (meetings_update now id form) st = (Raise e, mk_ctx st [])
            /\ (e = ValueError \/ e = TypeError).
Proof.
  intros Hm Hd Hrej Hbad. unfold meetings_update. run. rewrite Hm. simpl.
  rewrite Hd. simpl. rewrite Hrej.
  destruct Hbad as [[e H]|[[e H]|[[e H]|[[e H]|[e H]]]]];
    repeat case_step; fmap_inv; try congruence; exn_inv; eauto.
Qed.

Lemma absent_or_date_parses x :
  absent_or_date x -> exists d, parse_date x = Ok d.
Proof.
  intros [->|[->|(s & d & -> & H)]]; [by exists None..|].
  exists (Some d). by apply date_written_parse_date.
Qed.

Lemma not_past_submission now form d :
  ~ past_submission now form ->
  parse_date (form !! "date") = Ok d ->
  reject_if_past now d (parse_time (form !! "start_time")) = false.
Proof.
  intros Hnot Hd.
  destruct d as [d|]; [|done].
  destruct (parse_time (form !! "start_time")) as [t|] eqn:Ht; [|done].
  simpl. destruct (datetime_ltb (combine d t) now) eqn:E; [|done].
  destruct Hnot. exists d, t. by apply datetime_ltb_earlier in E.
Qed.

Lemma non_numeric_fields form :
  non_numeric (form !! "invited_count")
  \/ non_numeric (form !! "accepted_count")
  \/ non_numeric (form !! "duration_minutes")
  \/ non_numeric (form !! "club_id")
  \/ non_numeric (form !! "room_id") ->
  some_field_raises form.
Proof.
  unfold some_field_raises.
  intros [H|[H|[H|[H|H]]]]; apply non_numeric_raises in H as [H1 H2]; auto 10.
Qed.



Lemma length_date_text d : String.length (date_text d) = 10%nat.
Proof. reflexivity. Qed.


(** ** Submissions without a date or a time *)

Lemma parse_date_falsy s : str_truthy s = false -> parse_date s = Ok None.
Proof. by destruct s as [[|]|]. Qed.

Lemma parse_time_falsy s : str_truthy s = false -> parse_time s = None.
Proof. by destruct s as [[|]|]. Qed.

Lemma to_row_absent st id m :
  MeetingObj.date m = None \/ MeetingObj.start_time m = None ->
  to_row st id m = Raise IntegrityError.
Proof.
  unfold to_row. intros [-> | ->]; [done|]. by destruct (MeetingObj.date m).
Qed.



(** * Further properties of the handlers and helpers *)

(** ** Which requests write *)

(** X1: a request changes the store only when it is answered with the
    redirect to the list, and then exactly one of the three success notices
    is flashed; a request that raises changes nothing and flashes nothing;
    a GET request never changes the store and never flashes. *)
Theorem store_written_only_on_success (now : datetime) (r : Request) (st : Store) :
  let o := serve (dispatch now r) st in
  (store_after o <> st ->
   fst o = Ok (Redirect url_meetings_list)
   /\ exists msg, flashed (snd o) = [msg] /\ msg ∈ success_notices)
  /\ (forall e, fst o = Raise e -> snd o = mk_ctx st [])
  /\ (is_get r = true -> snd o = mk_ctx st []).
Proof.
  unfold success_notices.
  destruct r; simpl.
  - unfold home. run. by repeat split.
  - unfold meetings_list. run. by repeat split.
  - unfold meetings_new. run. by repeat split.
  - unfold meetings_create. run.
    repeat case_step; (split; [|split]); try done.
    intros _. split; [done|]. eexists. split; [done|]. set_solver.
  - unfold meetings_edit. run. repeat case_step; by repeat split.
  - unfold meetings_update. run.
    repeat case_step; (split; [|split]); try done.
    intros _. split; [done|]. eexists. split; [done|]. set_solver.
  - unfold meetings_delete. run.
    repeat case_step; (split; [|split]); try done.
    intros _. split; [done|]. eexists. split; [done|]. set_solver.
  - unfold report. run. repeat case_step; by repeat split.
Qed.

Lemma store_written_only_on_success_witness :
  snd (serve (dispatch example_now (GET_report range_args)) example_store)
  = mk_ctx example_store []
  /\ snd (serve (dispatch example_now
                   (POST_meetings (example_form "2025-11-20" "abc" "12")))
            example_store)
     = mk_ctx example_store [].
Proof.
  destruct (store_written_only_on_success example_now (GET_report range_args)
              example_store) as (_ & _ & Hget).
  destruct (store_written_only_on_success example_now
              (POST_meetings (example_form "2025-11-20" "abc" "12"))
              example_store) as (_ & Hraise & _).
  split; [exact (Hget eq_refl)|].
  apply (Hraise ValueError). vm_compute. reflexivity.
Defined.

(** ** Clubs and rooms *)

Lemma insert_meeting_Ok m st st' :
  insert_meeting m st = Ok st' ->
  exists row,
    to_row st (next_id (ids st)) m = Ok row
    /\ st' = set_meetings (meetings st ++ [row]) st.
Proof.
  unfold insert_meeting. intros H.
  apply result_bind_Ok in H as (row & Hrow & [= <-]). eauto.
Qed.

Lemma update_meeting_Ok id m st st' :
  update_meeting id m st = Ok st' ->
  exists row,
    to_row st id m = Ok row
    /\ st' = set_meetings
               ((fun r => if decide (Meeting.meeting_id r = id) then row else r)
                  <$> meetings st) st.
Proof.
  unfold update_meeting. intros H.
  apply result_bind_Ok in H as (row & Hrow & [= <-]). eauto.
Qed.

Ltac commit_inv :=
  repeat match goal with
         | H : insert_meeting _ _ = Ok _ |- _ =>
             apply insert_meeting_Ok in H as (? & ? & ->)
         | H : update_meeting _ _ _ = Ok _ |- _ =>
             apply update_meeting_Ok in H as (? & ? & ->)
         end.

Lemma serve_keeps_clubs_rooms now r st :
  let st' := store_after (serve (dispatch now r) st) in
  clubs st' = clubs st /\ rooms st' = rooms st
  /\ foreign_keys st' = foreign_keys st.
Proof.
  destruct r; simpl.
  - done.
  - done.
  - done.
  - unfold meetings_create. run. repeat case_step; commit_inv; done.
  - unfold meetings_edit. run. repeat case_step; done.
  - unfold meetings_update. run. repeat case_step; commit_inv; done.
  - unfold meetings_delete. run. repeat case_step; done.
  - unfold report. run. repeat case_step; done.
Qed.

Lemma startup_seeded_or_empty st :
  seeded_or_empty st -> seeded_or_empty (startup st).
Proof.
  intros [[Hc|Hc] [Hr|Hr]]; split; simpl; unfold seed_clubs, seed_rooms;
    rewrite ?Hc, ?Hr; auto.
Qed.

Lemma init_db_seeded_or_empty st :
  seeded_or_empty st -> seeded_or_empty (init_db st).
Proof.
  intros Hst. unfold init_db.
  destruct (meetings st); [|by apply startup_seeded_or_empty].
  case_match; [|done]. by apply startup_seeded_or_empty.
Qed.

Lemma serve_seeded_or_empty now r st :
  seeded_or_empty st ->
  seeded_or_empty (store_after (serve (dispatch now r) st)).
Proof.
  unfold seeded_or_empty.
  by destruct (serve_keeps_clubs_rooms now r st) as (-> & -> & _).
Qed.

Lemma reachable_seeded_or_empty st : reachable st -> seeded_or_empty st.
Proof.
  induction 1 as [fk|st _ IH|st _ IH|st now r _ IH];
    [split; by left | by apply startup_seeded_or_empty
    | by apply init_db_seeded_or_empty | by apply serve_seeded_or_empty].
Qed.

(** X2: no request creates, changes or deletes a club or a room; in every
    reachable store the clubs are none or the three seeded ones, and the
    rooms none or the two seeded ones. *)
Theorem clubs_and_rooms_only_seeded :
  (forall now r st,
     clubs (store_after (serve (dispatch now r) st)) = clubs st
     /\ rooms (store_after (serve (dispatch now r) st)) = rooms st)
  /\ forall st,
       reachable st ->
       (clubs st = []
        \/ clubs st = [Club.mk 1 "Chess Club"; Club.mk 2 "Robotics";
                       Club.mk 3 "Art Society"])
       /\ (rooms st = []
           \/ rooms st = [Room.mk 1 "Eng" "101" (Some 40);
                          Room.mk 2 "Sci" "202" (Some 60)]).
Proof.
  split.
  - intros now r st.
    destruct (serve_keeps_clubs_rooms now r st) as (Hc & Hr & _). done.
  - induction 1 as [fk|st _ IH|st _ IH|st now r _ IH].
    + split; by left.
    + by apply startup_seeded_or_empty.
    + by apply init_db_seeded_or_empty.
    + by apply serve_seeded_or_empty.
Qed.

Lemma clubs_and_rooms_only_seeded_witness :
  (clubs example_store = []
   \/ clubs example_store = [Club.mk 1 "Chess Club"; Club.mk 2 "Robotics";
                             Club.mk 3 "Art Society"])
  /\ (rooms example_store = []
      \/ rooms example_store = [Room.mk 1 "Eng" "101" (Some 40);
                                Room.mk 2 "Sci" "202" (Some 60)]).
Proof.
  destruct clubs_and_rooms_only_seeded as [_ Hreach].
  exact (Hreach example_store example_store_reachable).
Defined.

(** ** Primary keys *)

Lemma next_id_gt (l : list Z) x : x ∈ l -> x < next_id l.
Proof.
  unfold next_id. induction l as [|y l IH]; intros Hx.
  - by apply not_elem_of_nil in Hx.
  - apply elem_of_cons in Hx as [->|Hx]; simpl; [lia|].
    specialize (IH Hx). lia.
Qed.

Lemma next_id_pos (l : list Z) : 1 <= next_id l.
Proof. unfold next_id. induction l as [|y l IH]; simpl; lia. Qed.

Lemma ids_updated id row (rows : list Meeting.t) :
  Meeting.meeting_id row = id ->
  Meeting.meeting_id
    <$> ((fun r => if decide (Meeting.meeting_id r = id) then row else r)
           <$> rows)
  = Meeting.meeting_id <$> rows.
Proof.
  intros Hid. rewrite <- list_fmap_compose. apply list_fmap_ext.
  intros k r _. simpl. by case_decide; subst.
Qed.

Lemma keys_ok_snoc l : keys_ok l -> keys_ok (l ++ [next_id l]).
Proof.
  intros [Hnd Hpos]. split.
  - apply NoDup_app. split; [done|]. split; [|apply NoDup_singleton].
    intros x Hx Hx'. apply list_elem_of_singleton in Hx' as ->.
    apply next_id_gt in Hx. lia.
  - apply Forall_app. split; [done|]. repeat constructor. apply next_id_pos.
Qed.

Lemma keys_ok_filter (P : Meeting.t -> Prop) `{Pdec : !forall r, Decision (P r)}
    (rows : list Meeting.t) :
  keys_ok (Meeting.meeting_id <$> rows) ->
  keys_ok (Meeting.meeting_id <$> filter P rows).
Proof.
  intros [Hnd Hpos].
  assert (Hsub : sublist (Meeting.meeting_id <$> filter P rows)
                   (Meeting.meeting_id <$> rows)).
  { apply fmap_sublist, sublist_filter. }
  split.
  - by eapply sublist_NoDup.
  - rewrite Forall_forall in Hpos |- *. intros x Hx. apply Hpos.
    by eapply elem_of_sublist.
Qed.

Lemma serve_keys_ok now r st :
  keys_ok (ids st) -> keys_ok (ids (store_after (serve (dispatch now r) st))).
Proof.
  intros Hst. destruct r; simpl; try done.
  - unfold meetings_create. run. repeat case_step; try done.
    commit_inv.
    match goal with H : to_row _ _ _ = Ok _ |- _ =>
      apply to_row_Ok in H as (? & ? & _ & _ & _ & ->) end.
    unfold ids. simpl. rewrite fmap_app. simpl. by apply keys_ok_snoc.
  - unfold meetings_edit. run. by repeat case_step.
  - unfold meetings_update. run. repeat case_step; try done.
    commit_inv.
    match goal with H : to_row _ _ _ = Ok _ |- _ =>
      apply to_row_Ok in H as (? & ? & _ & _ & _ & ->) end.
    unfold ids. simpl. by rewrite ids_updated.
  - unfold meetings_delete. run. repeat case_step; try done.
    unfold ids. simpl. by apply keys_ok_filter.
  - unfold report. run. by repeat case_step.
Qed.

Lemma init_db_keys_ok st : keys_ok (ids st) -> keys_ok (ids (init_db st)).
Proof.
  intros Hst. unfold init_db. destruct (meetings st) eqn:E; [|exact Hst].
  case_match; [|exact Hst].
  split; [|repeat constructor; simpl; lia].
  unfold ids. simpl. apply (bool_decide_unpack _). by vm_compute.
Qed.

Lemma reachable_keys_ok st : reachable st -> keys_ok (ids st).
Proof.
  induction 1 as [fk|st _ IH|st _ IH|st now r _ IH];
    [split; constructor | exact IH | by apply init_db_keys_ok
    | by apply serve_keys_ok].
Qed.

(** X3: in every reachable store the meeting ids are pairwise distinct and
    at least 1, so an id names at most one meeting. *)
Theorem meeting_ids_unique (st : Store) :
  reachable st ->
  NoDup (ids st) /\ Forall (fun i => 1 <= i) (ids st).
Proof.
  induction 1 as [fk|st _ IH|st _ IH|st now r _ IH].
  - split; constructor.
  - exact IH.
  - by apply init_db_keys_ok.
  - by apply serve_keys_ok.
Qed.

Lemma meeting_ids_unique_witness :
  NoDup (ids example_store) /\ Forall (fun i => 1 <= i) (ids example_store).
Proof. exact (meeting_ids_unique example_store example_store_reachable). Defined.

(** ** Lookup by id after a write *)

Lemma get_or_404_cons id r rows st :
  get_or_404 id (set_meetings (r :: rows) st)
  = if decide (Meeting.meeting_id r = id) then Ok r
    else get_or_404 id (set_meetings rows st).
Proof.
  unfold get_or_404. cbn [meetings set_meetings list_find].
  case_decide; [done|].
  by destruct (list_find _ rows) as [[k r']|].
Qed.

Lemma get_or_404_nil id st : get_or_404 id (set_meetings [] st) = Raise NotFound.
Proof. done. Qed.

Lemma get_or_404_set_meetings id st :
  get_or_404 id (set_meetings (meetings st) st) = get_or_404 id st.
Proof. done. Qed.

Lemma get_or_404_snoc id rows row st :
  get_or_404 id (set_meetings (rows ++ [row]) st)
  = match get_or_404 id (set_meetings rows st) with
    | Ok r => Ok r
    | Raise _ =>
        if decide (Meeting.meeting_id row = id) then Ok row else Raise NotFound
    end.
Proof.
  induction rows as [|r rows IH].
  - simpl app. rewrite get_or_404_cons, !get_or_404_nil. done.
  - rewrite <- app_comm_cons, !get_or_404_cons.
    destruct (decide (Meeting.meeting_id r = id)); [done | exact IH].
Qed.

Lemma get_or_404_updated_other id id' row (rows : list Meeting.t) st :
  Meeting.meeting_id row = id -> id' <> id ->
  get_or_404 id'
    (set_meetings
       ((fun r => if decide (Meeting.meeting_id r = id) then row else r)
          <$> rows) st)
  = get_or_404 id' (set_meetings rows st).
Proof.
  intros Hrow Hne. induction rows as [|r rows IH]; [done|].
  rewrite fmap_cons, !get_or_404_cons, IH.
  destruct (decide (Meeting.meeting_id r = id)) as [Hr|Hr].
  - rewrite !decide_False by congruence. done.
  - done.
Qed.

Lemma get_or_404_deleted_other id id' st :
  id' <> id -> get_or_404 id' (delete_meeting id st) = get_or_404 id' st.
Proof.
  intros Hne. rewrite <- (get_or_404_set_meetings id' st).
  unfold delete_meeting. fold (set_meetings (filter (fun r => Meeting.meeting_id r ≠ id) (meetings st)) st).
  induction (meetings st) as [|r rows IH]; [done|].
  rewrite filter_cons, (get_or_404_cons id' r rows).
  destruct (decide (Meeting.meeting_id r ≠ id)) as [Hr|Hr].
  - rewrite get_or_404_cons, IH. done.
  - rewrite IH. rewrite decide_False; [done|].
    intros Heq. apply Hr. congruence.
Qed.

Lemma get_or_404_Ok_elem id st r :
  get_or_404 id st = Ok r -> r ∈ meetings st /\ Meeting.meeting_id r = id.
Proof.
  unfold get_or_404.
  destruct (list_find _ (meetings st)) as [[k r']|] eqn:E; [|done].
  intros [= ->]. apply list_find_Some in E as (Hk & Hr & _).
  split; [|done]. by eapply list_elem_of_lookup_2.
Qed.

Lemma NoDup_fmap_elem_inj {A B} (f : A -> B) (l : list A) x y :
  NoDup (f <$> l) -> x ∈ l -> y ∈ l -> f x = f y -> x = y.
Proof.
  induction l as [|a l IH]; intros Hnd Hx Hy Hf.
  - by apply not_elem_of_nil in Hx.
  - rewrite fmap_cons in Hnd. apply NoDup_cons in Hnd as [Ha Hnd].
    apply elem_of_cons in Hx as [->|Hx], Hy as [->|Hy]; auto.
    + destruct Ha. rewrite Hf. by apply list_elem_of_fmap_2.
    + destruct Ha. rewrite <- Hf. by apply list_elem_of_fmap_2.
Qed.



(** ** Create, update and delete, one meeting at a time *)

Lemma not_earlier_not_past now d t :
  ~ earlier (combine d t) now -> reject_if_past now (Some d) (Some t) = false.
Proof.
  intros H. simpl. destruct (datetime_ltb _ _) eqn:E; [|done].
  by apply datetime_ltb_earlier in E.
Qed.

Lemma meetings_create_accepts now form st d t i a du cl ro :
  parse_date (form !! "date") = Ok (Some d) ->
  parse_time (form !! "start_time") = Some t ->
  datetime_ltb (combine d t) now = false ->
  py_int_or_0 (form !! "invited_count") = Ok i ->
  py_int_or_0 (form !! "accepted_count") = Ok a ->
  py_int_or_0 (form !! "duration_minutes") = Ok du ->
  py_int (form !! "club_id") = Ok cl ->
  py_int (form !! "room_id") = Ok ro ->
  integers_fit (MeetingObj.mk (Some d) (Some t) du (form !! "description")
                  cl ro (Z.max 0 i) (Z.max 0 a)) = true ->
  references_ok st cl ro = true ->
  serve (meetings_create now form) st
  = (Ok (Redirect url_meetings_list),
     mk_ctx (set_meetings
               (meetings st ++
                  [Meeting.mk (next_id (ids st)) d t du (form !! "description")
                     cl ro (Z.max 0 i) (Z.max 0 a)]) st)
       ["Meeting created!"]).
Proof.
  intros Hd Ht Hnow Hi Ha Hdu Hcl Hro Hfit Hrefs.
  unfold meetings_create. run. rewrite Hd. simpl. rewrite Ht, Hnow.
  rewrite Hi, Ha. simpl.
  rewrite Hdu. simpl. rewrite Hcl. simpl. rewrite Hro. simpl.
  unfold insert_meeting. erewrite to_row_accepts; done.
Qed.

Lemma integers_fit_intro d t desc du cl ro i a :
  int64 du = true -> int64 cl = true -> int64 ro = true ->
  int64 i = true -> int64 a = true ->
  integers_fit (MeetingObj.mk d t du desc cl ro i a) = true.
Proof. unfold integers_fit. simpl. by intros -> -> -> -> ->. Qed.

(** X5: a create whose date and time parse and are not in the past, whose
    numeric fields convert to integers of the signed 64-bit range of an
    INTEGER column and whose references the store accepts, on a store whose
    next key is in that range too, is answered with the redirect to the
    list and appends one row: it has the next free id, the submitted values
    (duration as submitted, counts raised to 0), and every earlier meeting
    is still found under its id.  The new meeting is what the edit form of
    its id shows, and it is among the rows of the list. *)
Theorem create_appends_submission (now : datetime) (form : Params) (st : Store)
    (d : date) (t : time) (i a du cl ro : Z) :
  parse_date (form !! "date") = Ok (Some d) ->
  parse_time (form !! "start_time") = Some t ->
  ~ earlier (combine d t) now ->
  py_int_or_0 (form !! "invited_count") = Ok i ->
  py_int_or_0 (form !! "accepted_count") = Ok a ->
  py_int_or_0 (form !! "duration_minutes") = Ok du ->
  py_int (form !! "club_id") = Ok cl ->
  py_int (form !! "room_id") = Ok ro ->
  int64 du = true -> int64 cl = true -> int64 ro = true ->
  int64 (Z.max 0 i) = true -> int64 (Z.max 0 a) = true ->
  references_ok st cl ro = true ->
  int64 (next_id (ids st)) = true ->
  let row := Meeting.mk (next_id (ids st)) d t du (form !! "description")
               cl ro (Z.max 0 i) (Z.max 0 a) in
  let st' := set_meetings (meetings st ++ [row]) st in
  serve (meetings_create now form) st
  = (Ok (Redirect url_meetings_list), mk_ctx st' ["Meeting created!"])
  /\ (forall id m, get_or_404 id st = Ok m -> get_or_404 id st' = Ok m)
  /\ (forall now',
        serve (meetings_edit now' (next_id (ids st))) st'
        = (Ok (Render (meeting_form_html "edit" (Some row) (clubs_by_name st)
                         (rooms_by_building_number st) now')),
           mk_ctx st' []))
  /\ exists rows,
       serve meetings_list st'
       = (Ok (Render (meetings_list_html rows)), mk_ctx st' [])
       /\ row ∈ rows
       /\ length rows = S (length (meetings st)).
Proof.
  intros Hd Ht Hnow Hi Ha Hdu Hcl Hro Fdu Fcl Fro Fi Fa Hrefs _ row st'.
  apply not_earlier_not_past in Hnow. simpl in Hnow.
  assert (Hnew : get_or_404 (next_id (ids st)) st' = Ok row).
  { unfold st'. rewrite get_or_404_snoc, get_or_404_set_meetings.
    destruct (get_or_404 (next_id (ids st)) st) as [r|e] eqn:E.
    - apply get_or_404_Ok_elem in E as [Hr Hid].
      assert (Meeting.meeting_id r < next_id (ids st)); [|lia].
      apply next_id_gt. unfold ids. by apply list_elem_of_fmap_2.
    - by rewrite decide_True. }
  split; [|split; [|split]].
  - apply meetings_create_accepts; try done.
    by apply integers_fit_intro.
  - intros id m Hm. unfold st'.
    by rewrite get_or_404_snoc, get_or_404_set_meetings, Hm.
  - intros now'. unfold meetings_edit. run. by rewrite Hnew.
  - exists (order_by_date_time_desc (meetings st')).
    split; [done|]. unfold order_by_date_time_desc.
    rewrite merge_sort_Permutation. split.
    + unfold st'. simpl. apply elem_of_app. right. by left.
    + unfold st'. simpl. rewrite length_app. simpl. lia.
Qed.

Lemma create_appends_submission_witness :
  Meeting.meeting_id
    <$> meetings (store_after
                    (serve (meetings_create example_now
                              (example_form "2025-12-01" "7" "9"))
                       example_store))
  = [1; 2; 3; 4]
  /\ serve (meetings_create example_now (example_form "2025-12-01" "7" "9"))
       example_store
     = (Ok (Redirect url_meetings_list),
        mk_ctx (set_meetings
                  (meetings example_store ++
                     [Meeting.mk (next_id (ids example_store))
                        (mk_date 2025 12 1) (mk_time 18 30 0 0) 60
                        (example_form "2025-12-01" "7" "9" !! "description")
                        1 1 (Z.max 0 7) (Z.max 0 9)])
                  example_store)
          ["Meeting created!"]).
Proof.
  split; [vm_compute; reflexivity|].
  assert (Hnow : ~ earlier (combine (mk_date 2025 12 1) (mk_time 18 30 0 0))
                     example_now).
  { intros H. apply datetime_ltb_earlier in H. vm_compute in H.
    discriminate H. }
  destruct (create_appends_submission example_now
              (example_form "2025-12-01" "7" "9") example_store
              (mk_date 2025 12 1) (mk_time 18 30 0 0) 7 9 60 1 1
              eq_refl eq_refl Hnow eq_refl eq_refl eq_refl eq_refl eq_refl
              eq_refl eq_refl eq_refl eq_refl eq_refl eq_refl eq_refl)
    as [Hrun _].
  exact Hrun.
Defined.

(** X6: an update of a stored meeting whose date and time parse and are
    not in the past, whose numeric fields convert to integers of the
    signed 64-bit range of an INTEGER column and whose references the
    store accepts, is answered with the redirect to the list; afterwards
    the id holds the submitted values, the set of ids is the one before,
    and every other id gives the meeting it gave before. *)
Theorem update_rewrites_one_meeting (now : datetime) (id : Z) (form : Params)
    (st : Store) (m0 : Meeting.t) (d : date) (t : time) (i a du cl ro : Z) :
  get_or_404 id st = Ok m0 ->
  parse_date (form !! "date") = Ok (Some d) ->
  parse_time (form !! "start_time") = Some t ->
  ~ earlier (combine d t) now ->
  py_int_or_0 (form !! "invited_count") = Ok i ->
  py_int_or_0 (form !! "accepted_count") = Ok a ->
  py_int_or_0 (form !! "duration_minutes") = Ok du ->
  py_int (form !! "club_id") = Ok cl ->
  py_int (form !! "room_id") = Ok ro ->
  int64 du = true -> int64 cl = true -> int64 ro = true ->
  int64 (Z.max 0 i) = true -> int64 (Z.max 0 a) = true ->
  references_ok st cl ro = true ->
  let row := Meeting.mk id d t du (form !! "description") cl ro
               (Z.max 0 i) (Z.max 0 a) in
  exists st',
    serve (meetings_update now id form) st
    = (Ok (Redirect url_meetings_list), mk_ctx st' ["Meeting updated!"])
    /\ get_or_404 id st' = Ok row
    /\ ids st' = ids st
    /\ forall id', id' <> id -> get_or_404 id' st' = get_or_404 id' st.
Proof.
  intros Hm0 Hd Ht Hnow Hi Ha Hdu Hcl Hro Fdu Fcl Fro Fi Fa Hrefs row.
  apply not_earlier_not_past in Hnow. simpl in Hnow.
  exists (set_meetings
            ((fun r => if decide (Meeting.meeting_id r = id) then row else r)
               <$> meetings st) st).
  split; [|split; [|split]].
  - unfold meetings_update. run. rewrite Hm0. simpl. rewrite Hd. simpl.
    rewrite Ht, Hnow, Hdu. simpl. rewrite Hcl. simpl. rewrite Hro. simpl.
    rewrite Hi. simpl. rewrite Ha. simpl.
    unfold update_meeting.
    erewrite to_row_accepts; [done..| |done]. by apply integers_fit_intro.
  - eapply get_or_404_updated; [done|].
    rewrite get_or_404_set_meetings. exact Hm0.
  - unfold ids. simpl. by apply ids_updated.
  - intros id' Hne. rewrite get_or_404_updated_other by done.
    apply get_or_404_set_meetings.
Qed.

Lemma update_rewrites_one_meeting_witness :
  exists st',
    serve (meetings_update example_now 2 (example_form "2025-12-01" "7" "9"))
      example_store
    = (Ok (Redirect url_meetings_list), mk_ctx st' ["Meeting updated!"])
    /\ ids st' = ids example_store
    /\ Meeting.date <$> get_or_404 2 st' = Ok (mk_date 2025 12 1).
Proof.
  assert (Hm : get_or_404 2 example_store
               = Ok (Meeting.mk 2 (mk_date 2025 11 11) (mk_time 18 30 0 0) 60
                       (Some "Weekly meetup") 1 1 0 5))
    by (vm_compute; reflexivity).
  assert (Hnow : ~ earlier (combine (mk_date 2025 12 1) (mk_time 18 30 0 0))
                     example_now).
  { intros H. apply datetime_ltb_earlier in H. vm_compute in H.
    discriminate H. }
  destruct (update_rewrites_one_meeting example_now 2
              (example_form "2025-12-01" "7" "9") example_store _
              (mk_date 2025 12 1) (mk_time 18 30 0 0) 7 9 60 1 1
              Hm eq_refl eq_refl Hnow eq_refl eq_refl eq_refl eq_refl eq_refl
              eq_refl eq_refl eq_refl eq_refl eq_refl eq_refl)
    as (st' & Hrun & Hrow & Hids & _).
  exists st'. split; [exact Hrun|]. split; [exact Hids|].
  rewrite Hrow. reflexivity.
Defined.

Lemma to_row_overflow st id m d t :
  MeetingObj.date m = Some d -> MeetingObj.start_time m = Some t ->
  integers_fit m = false -> to_row st id m = Raise OverflowError.
Proof. unfold to_row. by intros -> -> ->. Qed.

(** X22: a create, or an update of a stored meeting, whose date and time
    parse and are not in the past and whose numeric fields convert, one of
    them to an integer outside the signed 64-bit range of an INTEGER
    column, fails at the commit with OverflowError; nothing is stored. *)
Theorem out_of_range_integer_not_stored (now : datetime) (form : Params)
    (st : Store) (d : date) (t : time) (i a du cl ro : Z) :
  parse_date (form !! "date") = Ok (Some d) ->
  parse_time (form !! "start_time") = Some t ->
  ~ earlier (combine d t) now ->
  py_int_or_0 (form !! "invited_count") = Ok i ->
  py_int_or_0 (form !! "accepted_count") = Ok a ->
  py_int_or_0 (form !! "duration_minutes") = Ok du ->
  py_int (form !! "club_id") = Ok cl ->
  py_int (form !! "room_id") = Ok ro ->
  int64 du = false \/ int64 cl = false \/ int64 ro = false
  \/ int64 (Z.max 0 i) = false \/ int64 (Z.max 0 a) = false ->
  serve (meetings_create now form) st = (Raise OverflowError, mk_ctx st [])
  /\ forall id m0,
       get_or_404 id st = Ok m0 ->
       serve (meetings_update now id form) st
       = (Raise OverflowError, mk_ctx st []).
Proof.
  intros Hd Ht Hnow Hi Ha Hdu Hcl Hro Hout.
  apply not_earlier_not_past in Hnow. simpl in Hnow.
  assert (Hfit : integers_fit
                   (MeetingObj.mk (Some d) (Some t) du (form !! "description")
                      cl ro (Z.max 0 i) (Z.max 0 a)) = false).
  { unfold integers_fit. simpl.
    destruct Hout as [->|[->|[->|[->| ->]]]];
      rewrite ?andb_false_r; reflexivity. }
  split.
  - unfold meetings_create. run. rewrite Hd. simpl. rewrite Ht, Hnow.
    rewrite Hi, Ha. simpl.
    rewrite Hdu. simpl. rewrite Hcl. simpl. rewrite Hro. simpl.
    unfold insert_meeting. by erewrite to_row_overflow.
  - intros id m0 Hm0.
    unfold meetings_update. run. rewrite Hm0. simpl. rewrite Hd. simpl.
    rewrite Ht, Hnow, Hdu. simpl. rewrite Hcl. simpl. rewrite Hro. simpl.
    rewrite Hi. simpl. rewrite Ha. simpl.
    unfold update_meeting. by erewrite to_row_overflow.
Qed.

Lemma out_of_range_integer_not_stored_witness :
  serve (meetings_create example_now
           (example_form "2025-12-01" "9223372036854775808" "9"))
    example_store
  = (Raise OverflowError, mk_ctx example_store []).
Proof.
  assert (Hnow : ~ earlier (combine (mk_date 2025 12 1) (mk_time 18 30 0 0))
                     example_now).
  { intros H. apply datetime_ltb_earlier in H. vm_compute in H.
    discriminate H. }
  destruct (out_of_range_integer_not_stored example_now
              (example_form "2025-12-01" "9223372036854775808" "9")
              example_store (mk_date 2025 12 1) (mk_time 18 30 0 0)
              9223372036854775808 9 60 1 1
              eq_refl eq_refl Hnow eq_refl eq_refl eq_refl eq_refl eq_refl
              (or_intror (or_intror (or_intror (or_introl eq_refl)))))
    as [Hcreate _].
  exact Hcreate.
Defined.

Lemma length_filter_other_key (rows : list Meeting.t) id :
  NoDup (Meeting.meeting_id <$> rows) ->
  id ∈ Meeting.meeting_id <$> rows ->
  S (length (filter (fun r => Meeting.meeting_id r ≠ id) rows)) = length rows.
Proof.
  induction rows as [|r rows IH]; intros Hnd Hin.
  - by apply not_elem_of_nil in Hin.
  - rewrite fmap_cons in Hnd, Hin. apply NoDup_cons in Hnd as [Hr Hnd].
    rewrite filter_cons.
    destruct (decide (Meeting.meeting_id r ≠ id)) as [Hne|Heq].
    + apply elem_of_cons in Hin as [->|Hin]; [done|].
      simpl. f_equal. by apply IH.
    + assert (Meeting.meeting_id r = id) as <-
        by (destruct (decide (Meeting.meeting_id r = id)); tauto).
      simpl. f_equal. clear IH Hin Heq.
      induction rows as [|r' rows IH]; [done|].
      rewrite fmap_cons in Hr, Hnd. apply not_elem_of_cons in Hr as [Hne Hr].
      apply NoDup_cons in Hnd as [_ Hnd].
      rewrite filter_cons, decide_True by congruence.
      simpl. f_equal. by apply IH.
Qed.

(** X7: in a reachable store, deleting a stored meeting takes away exactly
    one row: the store has one meeting fewer, the remaining rows keep their
    order, the deleted meeting is not among them, and every other id gives
    the meeting it gave before. *)
Theorem delete_removes_one_meeting (st : Store) (id : Z) (m : Meeting.t) :
  reachable st ->
  get_or_404 id st = Ok m ->
  let st' := store_after (serve (meetings_delete id) st) in
  length (meetings st) = S (length (meetings st'))
  /\ sublist (meetings st') (meetings st)
  /\ m ∈ meetings st
  /\ ~ m ∈ meetings st'
  /\ forall id', id' <> id -> get_or_404 id' st' = get_or_404 id' st.
Proof.
  intros Hst Hm st'.
  assert (Hst' : st' = delete_meeting id st).
  { unfold st', meetings_delete. run. by rewrite Hm. }
  rewrite Hst'. clear st' Hst'.
  apply reachable_keys_ok in Hst as [Hnd _].
  pose proof (get_or_404_Ok_elem _ _ _ Hm) as [Hin Hid].
  split; [|split; [|split; [|split]]].
  - simpl. symmetry. apply length_filter_other_key; [done|].
    rewrite <- Hid. by apply list_elem_of_fmap_2.
  - simpl. apply sublist_filter.
  - done.
  - rewrite elem_of_delete_meeting. tauto.
  - intros id' Hne. by apply get_or_404_deleted_other.
Qed.

Lemma delete_removes_one_meeting_witness :
  length (meetings example_store)
  = S (length (meetings (store_after
                           (serve (meetings_delete 2) example_store))))
  /\ Meeting.meeting_id
       <$> meetings (store_after (serve (meetings_delete 2) example_store))
     = [1; 3].
Proof.
  split; [|vm_compute; reflexivity].
  assert (Hm : get_or_404 2 example_store
               = Ok (Meeting.mk 2 (mk_date 2025 11 11) (mk_time 18 30 0 0) 60
                       (Some "Weekly meetup") 1 1 0 5))
    by (vm_compute; reflexivity).
  destruct (delete_removes_one_meeting example_store 2 _
              example_store_reachable Hm) as [Hlen _].
  exact Hlen.
Defined.

(** ** Seeding *)

Lemma startup_startup st : startup (startup st) = startup st.
Proof. destruct st as [[|c cs] [|r rs] ms fk]; reflexivity. Qed.

Lemma seeds_accepted st :
  seeded_or_empty st ->
  forallb (fun m => references_ok (startup st) (Meeting.club_id m)
                      (Meeting.room_id m)) seed_meetings = true.
Proof.
  intros [[Hc|Hc] [Hr|Hr]]; unfold references_ok, has_club, has_room; simpl;
    unfold seed_clubs, seed_rooms; rewrite Hc, Hr; simpl;
    by destruct (foreign_keys st).
Qed.

(** X8: seeding is idempotent and never touches existing rows: running the
    start-up seeding or the init-db command a second time changes nothing;
    the start-up seeding leaves the meetings alone; init-db leaves the
    meetings alone when there are any, and on a reachable store without
    meetings it stores exactly the two example meetings. *)
Theorem seeding_idempotent (st : Store) :
  startup (startup st) = startup st
  /\ init_db (init_db st) = init_db st
  /\ meetings (startup st) = meetings st
  /\ (meetings st <> [] -> meetings (init_db st) = meetings st)
  /\ (reachable st -> meetings st = [] ->
      meetings (init_db st) = seed_meetings).
Proof.
  split; [apply startup_startup|]. split; [|split; [done|split]].
  - destruct (meetings st) as [|m ms] eqn:E.
    + destruct (forallb (fun m => references_ok (startup st)
                                    (Meeting.club_id m) (Meeting.room_id m))
                  seed_meetings) eqn:Hrefs.
      * assert (HR : init_db st = set_meetings seed_meetings (startup st))
          by (unfold init_db; by rewrite E, Hrefs).
        rewrite HR. clear.
        destruct st as [[|c cs] [|r rs] ms fk]; reflexivity.
      * assert (HR : init_db st = st)
          by (unfold init_db; by rewrite E, Hrefs).
        by rewrite !HR.
    + assert (HR : init_db st = startup st)
        by (unfold init_db; by rewrite E).
      rewrite HR. unfold init_db. simpl. rewrite E. apply startup_startup.
  - intros Hne. unfold init_db.
    destruct (meetings st) eqn:E; [by destruct Hne | exact E].
  - intros Hst E. apply reachable_seeded_or_empty in Hst.
    unfold init_db. rewrite E. by rewrite seeds_accepted.
Qed.

Lemma seeding_idempotent_witness :
  meetings (init_db example_store) = meetings example_store
  /\ meetings (init_db (startup (empty_db true))) = seed_meetings.
Proof.
  destruct (seeding_idempotent example_store) as (_ & _ & _ & Hkeep & _).
  destruct (seeding_idempotent (startup (empty_db true)))
    as (_ & _ & _ & _ & Hseed).
  split.
  - apply Hkeep. vm_compute. discriminate.
  - apply Hseed; [|reflexivity]. repeat constructor.
Defined.

(** ** The choices of the forms *)

Lemma string_compare_lex a b :
  String.compare a b = lex_compare (codes a) (codes b).
Proof.
  revert b. induction a as [|c a IH]; intros [|c' b]; try done.
  unfold codes. simpl. unfold Ascii.compare.
  rewrite N2Z.inj_compare. by rewrite IH.
Qed.

Lemma club_le_not_after a b : club_le a b -> club_not_after a b.
Proof.
  unfold club_le, club_not_after, text_before.
  rewrite string_compare_lex. apply leb_of_lex.
Qed.

Lemma room_le_not_after a b : room_le a b -> room_not_after a b.
Proof.
  unfold room_le, room_not_after, text_before.
  rewrite !string_compare_lex.
  destruct (lex_compare (codes (Room.building a)) (codes (Room.building b)))
    eqn:E.
  - intros H. apply lex_compare_Eq in E. split.
    + rewrite E. apply lex_lt_irrefl.
    + intros _. by apply leb_of_lex.
  - intros _. apply lex_compare_Lt in E. split.
    + intros H. apply (lex_lt_irrefl (codes (Room.building a))).
      eapply lex_lt_trans; eauto.
    + intros Hb. rewrite Hb in E. by apply lex_lt_irrefl in E.
  - done.
Qed.

#[global] Instance club_le_total : Total club_le.
Proof.
  intros a b. unfold club_le. rewrite !string_compare_lex.
  rewrite (lex_compare_antisym (codes (Club.name a))).
  destruct (lex_compare _ _); simpl; auto.
Qed.

#[global] Instance club_le_trans : Transitive club_le.
Proof.
  intros a b c. unfold club_le. rewrite !string_compare_lex.
  apply leb_of_lex_trans.
Qed.

Lemma room_le_compare a b : room_le a b <-> leb_of (room_compare a b) = true.
Proof. unfold room_le, room_compare. by rewrite !string_compare_lex. Qed.

Lemma room_compare_antisym a b :
  room_compare b a = CompOpp (room_compare a b).
Proof.
  unfold room_compare.
  rewrite (lex_compare_antisym (codes (Room.building a))).
  rewrite (lex_compare_antisym (codes (Room.number a))).
  by destruct (lex_compare (codes (Room.building a)) _).
Qed.

#[global] Instance room_le_total : Total room_le.
Proof.
  intros a b. rewrite !room_le_compare, (room_compare_antisym a b).
  destruct (room_compare a b); simpl; auto.
Qed.

#[global] Instance room_le_trans : Transitive room_le.
Proof.
  intros a b c. rewrite !room_le_compare. unfold room_compare.
  destruct (lex_compare (codes (Room.building a)) (codes (Room.building b)))
    eqn:Eab.
  - apply lex_compare_Eq in Eab. rewrite Eab.
    destruct (lex_compare (codes (Room.building b)) (codes (Room.building c)));
      [apply leb_of_lex_trans|done..].
  - intros _. apply lex_compare_Lt in Eab.
    destruct (lex_compare (codes (Room.building b)) (codes (Room.building c)))
      eqn:Ebc; [| |done]; intros _.
    + apply lex_compare_Eq in Ebc. rewrite <- Ebc.
      apply lex_compare_Lt in Eab. by rewrite Eab.
    + apply lex_compare_Lt in Ebc.
      pose proof (lex_lt_trans _ _ _ Eab Ebc) as Hac.
      apply lex_compare_Lt in Hac. by rewrite Hac.
  - done.
Qed.

(** X9: the new-meeting form, and the edit form of a stored meeting, offer
    all the clubs, every one no later by name than the ones after it, and
    all the rooms, every one no later by building, and by number within a
    building, than the ones after it; texts are ordered character by
    character.  The edit form shows the stored meeting. *)
Theorem forms_offer_sorted_choices (now : datetime) (st : Store) :
  (exists cs rs,
     serve (meetings_new now) st
     = (Ok (Render (meeting_form_html "create" None cs rs now)), mk_ctx st [])
     /\ cs ≡ₚ clubs st /\ StronglySorted club_not_after cs
     /\ rs ≡ₚ rooms st /\ StronglySorted room_not_after rs)
  /\ forall id m,
       get_or_404 id st = Ok m ->
       exists cs rs,
         serve (meetings_edit now id) st
         = (Ok (Render (meeting_form_html "edit" (Some m) cs rs now)),
            mk_ctx st [])
         /\ cs ≡ₚ clubs st /\ StronglySorted club_not_after cs
         /\ rs ≡ₚ rooms st /\ StronglySorted room_not_after rs.
Proof.
  assert (Hsorted : clubs_by_name st ≡ₚ clubs st
                    /\ StronglySorted club_not_after (clubs_by_name st)
                    /\ rooms_by_building_number st ≡ₚ rooms st
                    /\ StronglySorted room_not_after
                         (rooms_by_building_number st)).
  { unfold clubs_by_name, rooms_by_building_number.
    split; [apply merge_sort_Permutation|].
    split; [|split; [apply merge_sort_Permutation|]].
    - apply (StronglySorted_weaken club_le); [apply club_le_not_after|].
      apply (StronglySorted_merge_sort club_le).
    - apply (StronglySorted_weaken room_le); [apply room_le_not_after|].
      apply (StronglySorted_merge_sort room_le). }
  split.
  - exists (clubs_by_name st), (rooms_by_building_number st). by split.
  - intros id m Hm.
    exists (clubs_by_name st), (rooms_by_building_number st).
    split; [|done]. unfold meetings_edit. run. by rewrite Hm.
Qed.

Lemma forms_offer_sorted_choices_witness :
  exists cs rs,
    serve (meetings_edit example_now 2) example_store
    = (Ok (Render (meeting_form_html "edit"
                     (Some (Meeting.mk 2 (mk_date 2025 11 11)
                              (mk_time 18 30 0 0) 60 (Some "Weekly meetup")
                              1 1 0 5))
                     cs rs example_now)),
       mk_ctx example_store [])
    /\ Club.name <$> cs = ["Art Society"; "Chess Club"; "Robotics"]
    /\ StronglySorted club_not_after cs
    /\ StronglySorted room_not_after rs.
Proof.
  assert (Hm : get_or_404 2 example_store
               = Ok (Meeting.mk 2 (mk_date 2025 11 11) (mk_time 18 30 0 0) 60
                       (Some "Weekly meetup") 1 1 0 5))
    by (vm_compute; reflexivity).
  destruct (forms_offer_sorted_choices example_now example_store)
    as [_ Hedit].
  destruct (Hedit 2 _ Hm) as (cs & rs & Hrun & _ & Hcs & _ & Hrs).
  exists cs, rs. split; [exact Hrun|]. split; [|split; [exact Hcs|exact Hrs]].
  assert (E : serve (meetings_edit example_now 2) example_store
              = (Ok (Render (meeting_form_html "edit"
                     (Some (Meeting.mk 2 (mk_date 2025 11 11)
                              (mk_time 18 30 0 0) 60 (Some "Weekly meetup")
                              1 1 0 5))
                     (clubs_by_name example_store)
                     (rooms_by_building_number example_store) example_now)),
                 mk_ctx example_store []))
    by (vm_compute; reflexivity).
  rewrite E in Hrun. injection Hrun as <- _. vm_compute. reflexivity.
Defined.

(** ** The report on a degenerate range *)

Lemma on_or_before_antisym a b : on_or_before a b -> on_or_before b a -> a = b.
Proof.
  intros [Hab|Hab] [Hba|Hba]; try done.
  destruct (lex_lt_irrefl (date_fields a)). by eapply lex_lt_trans.
Qed.

Lemma on_or_before_trans a b c :
  on_or_before a b -> on_or_before b c -> on_or_before a c.
Proof.
  intros [->|Hab] [->|Hbc]; try (by left); try (by right).
  right. by eapply lex_lt_trans.
Qed.



(** ** The past-check over time *)

(** X11: a meeting set at exactly the clock reading is not in the past;
    what the past-check rejects at one moment it rejects at every later
    moment, and what it lets pass it let pass at every earlier moment. *)
Theorem reject_if_past_over_time (now now' : datetime) (d : option date)
    (t : option time) :
  earlier now now' ->
  (reject_if_past now d t = true -> reject_if_past now' d t = true)
  /\ (reject_if_past now' d t = false -> reject_if_past now d t = false)
  /\ forall d0 t0, reject_if_past (combine d0 t0) (Some d0) (Some t0) = false.
Proof.
  intros Hlater.
  assert (Hmono : reject_if_past now d t = true ->
                  reject_if_past now' d t = true).
  { destruct d as [d0|], t as [t0|]; try done. simpl.
    rewrite !datetime_ltb_earlier. unfold earlier in *.
    intros H. by eapply lex_lt_trans. }
  split; [done|]. split.
  - intros H. destruct (reject_if_past now d t) eqn:E; [|done].
    rewrite Hmono in H; done.
  - intros d0 t0. simpl. unfold datetime_ltb, datetime_compare.
    by rewrite lex_compare_refl.
Qed.

Lemma reject_if_past_over_time_witness :
  reject_if_past (combine (mk_date 2025 11 2) (mk_time 0 0 0 0))
    (Some (mk_date 2025 10 31)) (Some (mk_time 18 30 0 0)) = true.
Proof.
  assert (Hlater : earlier example_now
                     (combine (mk_date 2025 11 2) (mk_time 0 0 0 0))).
  { apply datetime_ltb_earlier. reflexivity. }
  destruct (reject_if_past_over_time example_now
              (combine (mk_date 2025 11 2) (mk_time 0 0 0 0))
              (Some (mk_date 2025 10 31)) (Some (mk_time 18 30 0 0)) Hlater)
    as [Hmono _].
  apply Hmono. reflexivity.
Defined.

(** ** The texts a form submits *)

Lemma new_time_Ok h m s r :
  new_time h m s = Ok r <-> r = mk_time h m s 0 /\ valid_time (mk_time h m s 0).
Proof.
  unfold new_time, valid_time. simpl.
  destruct (_ && _) eqn:E.
  - rewrite !andb_true_iff, !Z.leb_le in E.
    split; [intros [= <-]; split; [done|lia] | by intros [-> _]].
  - split; [done|]. intros [_ H].
    rewrite <- not_true_iff_false in E. destruct E.
    rewrite !andb_true_iff, !Z.leb_le. lia.
Qed.

Lemma fmt_Ymd_date_text d : valid_date d -> Strptime.fmt_Ymd (date_text d) = Ok d.
Proof.
  intros Hd. pose proof Hd as (Hy & Hm & Hday).
  pose proof (days_in_month_bounds (year d) (month d)).
  unfold Strptime.fmt_Ymd, date_text.
  rewrite list_ascii_of_string_of_list_ascii.
  rewrite (first_match_head _ (year d, month d, day d)).
  - simpl. apply new_date_Ok. by destruct d.
  - eapply head_bind;
      [rewrite dir_Y_on_digits by lia; reflexivity|]. cbv beta iota.
    eapply head_bind; [apply lit_head|].
    eapply head_bind;
      [apply (directive_head Strptime.dir_m 1 12); [by left | lia]|].
    cbv beta iota.
    eapply head_bind; [apply lit_head|].
    rewrite <- (app_nil_r (two_digits (day d))).
    eapply head_bind;
      [apply (directive_head Strptime.dir_d 1 31); [by right; left | lia]|].
    reflexivity.
Qed.

(** X12: every date of the calendar between the years 1 and 9999, written
    as zero-padded YYYY-MM-DD, is parsed to itself. *)
Theorem parse_date_accepts_calendar (d : date) :
  valid_date d -> parse_date (Some (date_text d)) = Ok (Some d).
Proof.
  intros Hd. pose proof (fmt_Ymd_date_text d Hd) as Hfmt.
  destruct (date_text d) as [|c s] eqn:E.
  - unfold date_text, four_digits, two_digits in E. discriminate E.
  - by rewrite parse_date_nonempty, Hfmt.
Qed.

Lemma parse_date_accepts_calendar_witness :
  date_text (mk_date 2024 2 29) = "2024-02-29"%string
  /\ parse_date (Some (date_text (mk_date 2024 2 29)))
     = Ok (Some (mk_date 2024 2 29)).
Proof.
  split; [reflexivity|].
  apply parse_date_accepts_calendar. unfold valid_date. simpl.
  change (days_in_month 2024 2) with 29. lia.
Defined.

(** X13: parse_date gives None exactly for an absent or empty field; a date
    it returns is a date of the calendar (year 1 to 9999, month 1 to 12, day
    within the month, leap years counted); the only exception it raises is
    ValueError. *)
Theorem parse_date_results (s : option string) :
  (parse_date s = Ok None <-> str_truthy s = false)
  /\ (forall d, parse_date s = Ok (Some d) -> valid_date d)
  /\ (forall e, parse_date s = Raise e -> e = ValueError).
Proof.
  split; [|split].
  - destruct s as [[|c s]|]; try done.
    rewrite parse_date_nonempty. by destruct (Strptime.fmt_Ymd _).
  - intros d. destruct s as [[|c s]|]; try done.
    rewrite parse_date_nonempty. unfold Strptime.fmt_Ymd.
    destruct (Strptime.first_match _) as [[[y m] d']|e]; [|done].
    simpl. destruct (new_date y m d') as [r|e] eqn:E; [|done].
    intros [= <-]. by apply new_date_Ok in E as [-> H].
  - apply parse_date_exn.
Qed.

Lemma parse_date_results_witness :
  valid_date (mk_date 2025 11 10)
  /\ parse_date (Some "2025-02-29") = Raise ValueError.
Proof.
  destruct (parse_date_results (Some "2025-11-10")) as (_ & Hvalid & _).
  split; [apply Hvalid; reflexivity | reflexivity].
Defined.

(** X21: parse_date accepts exactly the dates written out: a four-digit
    year, a month and a day of one or two digits (or, for the day, a space
    and one digit), joined by ["-"], that make a date of the calendar; the
    result is that date. *)
Theorem parse_date_accepts_written (s : string) (d : date) :
  parse_date (Some s) = Ok (Some d) <-> date_written s d.
Proof.
  split; [apply parse_date_date_written | apply date_written_parse_date].
Qed.

Lemma fmt_HM_time_text t :
  valid_time t -> second t = 0 -> Strptime.fmt_HM (time_text_HM t) = Ok t.
Proof.
  intros (Hh & Hm & Hs & Hus) Hsec.
  unfold Strptime.fmt_HM, time_text_HM.
  rewrite list_ascii_of_string_of_list_ascii.
  rewrite (first_match_head _ (hour t, minute t)).
  - simpl. apply new_time_Ok. split; [|unfold valid_time; simpl; lia].
    destruct t; simpl in *; by subst.
  - eapply head_bind;
      [apply (directive_head Strptime.dir_H 0 23); [by right; right; left | lia]|].
    cbv beta iota.
    eapply head_bind; [apply lit_head|].
    rewrite <- (app_nil_r (two_digits (minute t))).
    eapply head_bind;
      [apply (directive_head Strptime.dir_M 0 59);
       [by right; right; right; left | lia]|].
    reflexivity.
Qed.

Lemma fmt_HM_time_text_HMS t :
  valid_time t -> Strptime.fmt_HM (time_text_HMS t) = Raise ValueError.
Proof.
  intros (Hh & Hm & Hs & Hus).
  unfold Strptime.fmt_HM, time_text_HMS.
  rewrite list_ascii_of_string_of_list_ascii.
  erewrite (first_match_leftover _ (hour t, minute t)); [done|].
  eapply head_bind;
    [apply (directive_head Strptime.dir_H 0 23); [by right; right; left | lia]|].
  cbv beta iota.
  eapply head_bind; [apply lit_head|].
  eapply head_bind;
    [apply (directive_head Strptime.dir_M 0 59);
     [by right; right; right; left | lia]|].
  reflexivity.
Qed.

Lemma fmt_HMS_time_text t :
  valid_time t -> Strptime.fmt_HMS (time_text_HMS t) = Ok t.
Proof.
  intros (Hh & Hm & Hs & Hus).
  unfold Strptime.fmt_HMS, time_text_HMS.
  rewrite list_ascii_of_string_of_list_ascii.
  rewrite (first_match_head _ (hour t, minute t, second t)).
  - simpl. apply new_time_Ok. split; [|unfold valid_time; simpl; lia].
    destruct t; simpl in *; by subst.
  - eapply head_bind;
      [apply (directive_head Strptime.dir_H 0 23); [by right; right; left | lia]|].
    cbv beta iota.
    eapply head_bind; [apply lit_head|].
    eapply head_bind;
      [apply (directive_head Strptime.dir_M 0 59);
       [by right; right; right; left | lia]|].
    cbv beta iota.
    eapply head_bind; [apply lit_head|].
    rewrite <- (app_nil_r (two_digits (second t))).
    eapply head_bind;
      [apply (directive_head Strptime.dir_S 0 59);
       [by right; right; right; right | lia]|].
    reflexivity.
Qed.

Lemma parse_time_nonempty c s :
  parse_time (Some (String c s))
  = match Strptime.fmt_HM (String c s) with
    | Ok t => Some t
    | Raise _ =>
        match Strptime.fmt_HMS (String c s) with
        | Ok t => Some t
        | Raise _ => None
        end
    end.
Proof. done. Qed.

(** X14: every time of the day without a fraction of a second, written as
    zero-padded HH:MM:SS, is parsed to itself, and so is HH:MM for a time
    on the full minute: both forms are accepted. *)
Theorem parse_time_accepts_both_forms (t : time) :
  valid_time t ->
  parse_time (Some (time_text_HMS t)) = Some t
  /\ (second t = 0 -> parse_time (Some (time_text_HM t)) = Some t).
Proof.
  intros Ht. split.
  - pose proof (fmt_HM_time_text_HMS t Ht) as H1.
    pose proof (fmt_HMS_time_text t Ht) as H2.
    destruct (time_text_HMS t) as [|c s] eqn:E.
    + unfold time_text_HMS, two_digits in E. discriminate E.
    + by rewrite parse_time_nonempty, H1, H2.
  - intros Hsec. pose proof (fmt_HM_time_text t Ht Hsec) as H1.
    destruct (time_text_HM t) as [|c s] eqn:E.
    + unfold time_text_HM, two_digits in E. discriminate E.
    + by rewrite parse_time_nonempty, H1.
Qed.

Lemma parse_time_accepts_both_forms_witness :
  time_text_HMS (mk_time 15 30 0 0) = "15:30:00"%string
  /\ time_text_HM (mk_time 15 30 0 0) = "15:30"%string
  /\ parse_time (Some (time_text_HMS (mk_time 15 30 0 0)))
     = Some (mk_time 15 30 0 0)
  /\ parse_time (Some (time_text_HM (mk_time 15 30 0 0)))
     = Some (mk_time 15 30 0 0).
Proof.
  split; [reflexivity|]. split; [reflexivity|].
  assert (Ht : valid_time (mk_time 15 30 0 0))
    by (unfold valid_time; simpl; lia).
  destruct (parse_time_accepts_both_forms (mk_time 15 30 0 0) Ht)
    as [Hhms Hhm].
  split; [exact Hhms | exact (Hhm eq_refl)].
Defined.

Lemma fmt_HM_valid s t : Strptime.fmt_HM s = Ok t -> valid_time t.
Proof.
  unfold Strptime.fmt_HM.
  destruct (Strptime.first_match _) as [[h m]|e]; [|done]. simpl.
  intros H. by apply new_time_Ok in H as [-> H].
Qed.

Lemma fmt_HMS_valid s t : Strptime.fmt_HMS s = Ok t -> valid_time t.
Proof.
  unfold Strptime.fmt_HMS.
  destruct (Strptime.first_match _) as [[[h m] sec]|e]; [|done]. simpl.
  intros H. by apply new_time_Ok in H as [-> H].
Qed.

Lemma parse_time_valid s t : parse_time s = Some t -> valid_time t.
Proof.
  destruct s as [[|c s]|]; try done. rewrite parse_time_nonempty.
  destruct (Strptime.fmt_HM _) as [t1|e1] eqn:E1.
  - intros [= <-]. by eapply fmt_HM_valid.
  - destruct (Strptime.fmt_HMS _) as [t2|e2] eqn:E2; [|done].
    intros [= <-]. by eapply fmt_HMS_valid.
Qed.

(** X15: parse_time never raises; a time it returns is a time of the day
    (hour 0 to 23, minute and second 0 to 59) without a fraction of a
    second; an absent or empty field, and a text in which a field is out of
    range or followed by more text, give None. *)
Theorem parse_time_results (s : option string) :
  (forall t, parse_time s = Some t -> valid_time t)
  /\ (str_truthy s = false -> parse_time s = None)
  /\ (forall t extra,
        valid_time t -> extra <> EmptyString ->
        parse_time (Some (time_text_HMS t ++ extra)%string) = None).
Proof.
  split; [|split].
  - intros t. apply parse_time_valid.
  - apply parse_time_falsy.
  - intros t extra (Hh & Hm & Hs & Hus) Hextra.
    destruct extra as [|c extra]; [done|].
    assert (Htext : list_ascii_of_string (time_text_HMS t ++ String c extra)
                    = two_digits (hour t) ++ ":"%char :: two_digits (minute t)
                        ++ ":"%char :: two_digits (second t)
                        ++ c :: list_ascii_of_string extra).
    { unfold time_text_HMS, two_digits. reflexivity. }
    assert (H1 : Strptime.fmt_HM (time_text_HMS t ++ String c extra)
                 = Raise ValueError).
    { unfold Strptime.fmt_HM. rewrite Htext.
      erewrite (first_match_leftover _ (hour t, minute t)); [done|].
      eapply head_bind;
        [apply (directive_head Strptime.dir_H 0 23);
         [by right; right; left | lia]|].
      cbv beta iota.
      eapply head_bind; [apply lit_head|].
      eapply head_bind;
        [apply (directive_head Strptime.dir_M 0 59);
         [by right; right; right; left | lia]|].
      reflexivity. }
    assert (H2 : Strptime.fmt_HMS (time_text_HMS t ++ String c extra)
                 = Raise ValueError).
    { unfold Strptime.fmt_HMS. rewrite Htext.
      erewrite (first_match_leftover _ (hour t, minute t, second t));
        [done|].
      eapply head_bind;
        [apply (directive_head Strptime.dir_H 0 23);
         [by right; right; left | lia]|].
      cbv beta iota.
      eapply head_bind; [apply lit_head|].
      eapply head_bind;
        [apply (directive_head Strptime.dir_M 0 59);
         [by right; right; right; left | lia]|].
      cbv beta iota.
      eapply head_bind; [apply lit_head|].
      eapply head_bind;
        [apply (directive_head Strptime.dir_S 0 59);
         [by right; right; right; right | lia]|].
      reflexivity. }
    destruct (time_text_HMS t ++ String c extra)%string as [|c' s'] eqn:E.
    + unfold time_text_HMS, two_digits in E. discriminate E.
    + by rewrite parse_time_nonempty, H1, H2.
Qed.

Lemma parse_time_results_witness :
  valid_time (mk_time 9 5 7 0)
  /\ parse_time (Some "15:30:00Z") = None
  /\ parse_time (Some "24:00") = None.
Proof.
  destruct (parse_time_results (Some "9:5:07")) as (Hvalid & _ & _).
  split; [apply Hvalid; reflexivity|]. split; reflexivity.
Defined.

(** ** Stored dates and times *)

Lemma parse_date_valid s d : parse_date s = Ok (Some d) -> valid_date d.
Proof.
  destruct s as [[|c s]|]; try done.
  rewrite parse_date_nonempty. unfold Strptime.fmt_Ymd.
  destruct (Strptime.first_match _) as [[[y m] d']|e]; [|done].
  simpl. destruct (new_date y m d') as [r|e] eqn:E; [|done].
  intros [= <-]. by apply new_date_Ok in E as [-> H].
Qed.

Lemma serve_rows_valid now r st :
  rows_valid st -> rows_valid (store_after (serve (dispatch now r) st)).
Proof.
  intros Hst. destruct r; simpl; try done.
  - unfold meetings_create. run. repeat case_step; try done.
    commit_inv.
    match goal with H : to_row _ _ _ = Ok _ |- _ =>
      apply to_row_Ok in H as (d & t & Hd & Ht & _ & ->) end.
    simpl in Hd, Ht. subst.
    unfold rows_valid. simpl. apply Forall_app. split; [done|].
    constructor; [|constructor]. simpl. split.
    + by eapply parse_date_valid.
    + by eapply parse_time_valid.
  - unfold meetings_edit. run. by repeat case_step.
  - unfold meetings_update. run. repeat case_step; try done.
    commit_inv.
    match goal with H : to_row _ _ _ = Ok _ |- _ =>
      apply to_row_Ok in H as (d & t & Hd & Ht & _ & ->) end.
    simpl in Hd, Ht. subst.
    unfold rows_valid in *. simpl. apply Forall_fmap.
    eapply Forall_impl; [exact Hst|]. intros r Hr. simpl.
    case_decide; [|done]. simpl. split.
    + by eapply parse_date_valid.
    + by eapply parse_time_valid.
  - unfold meetings_delete. run. repeat case_step; try done.
    unfold rows_valid in *. simpl. rewrite Forall_forall in Hst |- *.
    intros r Hr. apply list_elem_of_filter in Hr as [_ Hr]. auto.
  - unfold report. run. by repeat case_step.
Qed.

(** X16: in every reachable store each meeting has a date of the calendar
    and a time of the day without a fraction of a second: what is stored
    went through the parsers or is a seed. *)
Theorem stored_dates_and_times_valid (st : Store) :
  reachable st ->
  forall m, m ∈ meetings st ->
    valid_date (Meeting.date m) /\ valid_time (Meeting.start_time m).
Proof.
  intros Hst. apply Forall_forall. fold (rows_valid st).
  induction Hst as [fk|st _ IH|st _ IH|st now r _ IH].
  - constructor.
  - exact IH.
  - unfold init_db. destruct (meetings st) eqn:E; [|exact IH].
    case_match; [|exact IH].
    unfold rows_valid, seed_meetings, valid_date, valid_time. simpl.
    repeat (constructor; [simpl; vm_compute; intuition discriminate|]).
    constructor.
  - by apply serve_rows_valid.
Qed.

Lemma stored_dates_and_times_valid_witness :
  valid_date (mk_date 2025 11 11) /\ valid_time (mk_time 18 30 0 0).
Proof.
  apply (stored_dates_and_times_valid example_store example_store_reachable
           (Meeting.mk 2 (mk_date 2025 11 11) (mk_time 18 30 0 0) 60
              (Some "Weekly meetup") 1 1 0 5)).
  apply (bool_decide_unpack _). by vm_compute.
Defined.

(** ** The sign of the aggregates *)

Lemma Qc_of_Z_nonneg n : 0 <= n -> (0 <= Qc_of_Z n)%Qc.
Proof.
  intros H. apply (proj1 (Z2Qc_inj_le 0 n)) in H. by rewrite Z2Qc_inj_0 in H.
Qed.

Lemma Qcinv_nonneg (x : Qc) : (0 <= x)%Qc -> (0 <= / x)%Qc.
Proof.
  intros H. unfold Qcle in *. simpl in *.
  rewrite !Qred_correct in *. by apply Qinv_le_0_compat.
Qed.

Lemma Qcdiv_nonneg (x y : Qc) : (0 <= x)%Qc -> (0 <= y)%Qc -> (0 <= x / y)%Qc.
Proof.
  intros Hx Hy. unfold Qcdiv. apply Qcmult_nonneg_nonneg; [done|].
  by apply Qcinv_nonneg.
Qed.

Lemma sum_Qc_nonneg l : Forall (fun q => (0 <= q)%Qc) l -> (0 <= sum_Qc l)%Qc.
Proof.
  induction 1 as [|q l Hq _ IH]; [done|].
  change (0 <= q + sum_Qc l)%Qc. by apply Qcplus_nonneg_nonneg.
Qed.

Lemma mean_nonneg l : Forall (fun q => (0 <= q)%Qc) l -> (0 <= mean l)%Qc.
Proof.
  intros Hl. destruct l as [|q l]; [done|]. unfold mean.
  apply Qcdiv_nonneg; [by apply sum_Qc_nonneg|].
  apply Qc_of_Z_nonneg. unfold len. lia.
Qed.

Lemma Qc_nonneg_Qnum (x : Qc) : (0 <= x)%Qc -> 0 <= Qnum x.
Proof. unfold Qcle, Qle. simpl. lia. Qed.

Lemma round_half_even_nonneg num den :
  0 <= num -> 0 < den -> 0 <= round_half_even num den.
Proof.
  intros Hn Hd. unfold round_half_even. cbv zeta.
  assert (0 <= num / den) by (apply Z.div_pos; lia).
  repeat case_match; lia.
Qed.

Lemma pow2_nonneg e : (0 <= pow2 e)%Qc.
Proof.
  unfold pow2. case_match.
  - apply Qc_of_Z_nonneg, Z.pow_nonneg. lia.
  - apply Qcinv_nonneg, Qc_of_Z_nonneg, Z.pow_nonneg. lia.
Qed.

Lemma fl_pos_nonneg p q : 0 < p -> 0 < q -> (0 <= fl_pos p q)%Qc.
Proof.
  intros Hp Hq. unfold fl_pos. cbv zeta.
  apply Qcmult_nonneg_nonneg; [|apply pow2_nonneg].
  apply Qc_of_Z_nonneg, round_half_even_nonneg.
  - case_match; simpl; [lia|].
    apply Z.mul_nonneg_nonneg; [lia|]. apply Z.pow_nonneg. lia.
  - case_match; simpl; [|lia].
    apply Z.mul_pos_pos; [lia|]. apply Z.pow_pos_nonneg; lia.
Qed.

(** Rounding to a float keeps the sign. *)
Lemma fl_nonneg x : (0 <= x)%Qc -> (0 <= fl x)%Qc.
Proof.
  intros Hx. apply Qc_nonneg_Qnum in Hx. unfold fl.
  destruct (Qnum x) as [|p|p]; [done| |lia].
  apply fl_pos_nonneg; lia.
Qed.

Lemma py_round_nonneg x n : (0 <= x)%Qc -> (0 <= py_round x n)%Qc.
Proof.
  intros Hx. apply Qc_nonneg_Qnum in Hx. unfold py_round. cbv zeta.
  assert (Hs : 0 <= 10 ^ Z.of_nat n) by (apply Z.pow_nonneg; lia).
  apply fl_nonneg, Qcdiv_nonneg; [|by apply Qc_of_Z_nonneg].
  apply Qc_of_Z_nonneg, round_half_even_nonneg; [|lia].
  by apply Z.mul_nonneg_nonneg.
Qed.

Lemma float_sum_nonneg l :
  Forall (fun q => (0 <= q)%Qc) l -> (0 <= float_sum l)%Qc.
Proof.
  intros Hl. unfold float_sum.
  assert (H : forall s, (0 <= s)%Qc ->
                (0 <= foldl (fun s x => fl (s + x)) s l)%Qc); [|by apply H].
  induction Hl as [|q l Hq _ IH]; intros s Hs; [done|].
  simpl. apply IH, fl_nonneg. by apply Qcplus_nonneg_nonneg.
Qed.

Lemma float_mean_nonneg l :
  Forall (fun q => (0 <= q)%Qc) l -> (0 <= float_mean l)%Qc.
Proof.
  intros Hl. destruct l as [|q l]; [done|]. unfold float_mean.
  apply fl_nonneg, Qcdiv_nonneg; [by apply float_sum_nonneg|].
  apply fl_nonneg, Qc_of_Z_nonneg. unfold len. lia.
Qed.

Lemma sum_Z_nonneg l : Forall (fun n => 0 <= n) l -> 0 <= sum_Z l.
Proof. induction 1 as [|n l Hn _ IH]; simpl; lia. Qed.

Lemma float_mean_column_nonneg f rows :
  Forall (fun m => 0 <= f m) rows -> (0 <= float_mean_column f rows)%Qc.
Proof.
  intros Hl. destruct rows as [|m rows]; [done|]. unfold float_mean_column.
  apply fl_nonneg, Qcdiv_nonneg; apply Qc_of_Z_nonneg.
  - apply sum_Z_nonneg. by apply Forall_fmap.
  - unfold len. lia.
Qed.

(** X17: on every reachable store the report never shows a negative
    average of invited counts, of accepted counts or of attendance rates,
    before rounding or after it. *)
Theorem report_averages_nonneg (st : Store) (args : Params)
    clubs rooms rows filters stats c :
  reachable st ->
  serve (report args) st
  = (Ok (Render (report_html clubs rooms rows filters stats)), c) ->
  (0 <= mean_column Meeting.invited_count rows)%Qc
  /\ (0 <= mean_column Meeting.accepted_count rows)%Qc
  /\ (0 <= mean_rate_of_invited rows)%Qc
  /\ (0 <= Stats.avg_invited stats)%Qc
  /\ (0 <= Stats.avg_accepted stats)%Qc
  /\ (0 <= Stats.avg_attendance_rate stats)%Qc.
Proof.
  intros Hst Hrun.
  apply report_Ok_inv in Hrun
    as (df & dt & _ & _ & Hrows & _ & Hstats & _).
  assert (Hnn : Forall (fun m => 0 <= Meeting.invited_count m
                                 /\ 0 <= Meeting.accepted_count m) rows).
  { apply Forall_forall. intros m Hm. rewrite Hrows in Hm.
    apply report_query_elem in Hm as [Hm _].
    apply reachable_counts_nonneg in Hst.
    unfold counts_nonneg in Hst. rewrite Forall_forall in Hst.
    by apply Hst. }
  assert (Hi : (0 <= mean_column Meeting.invited_count rows)%Qc).
  { unfold mean_column. apply mean_nonneg.
    rewrite <- list_fmap_compose. apply Forall_fmap.
    eapply Forall_impl; [exact Hnn|]. intros m [H _]. simpl.
    by apply Qc_of_Z_nonneg. }
  assert (Ha : (0 <= mean_column Meeting.accepted_count rows)%Qc).
  { unfold mean_column. apply mean_nonneg.
    rewrite <- list_fmap_compose. apply Forall_fmap.
    eapply Forall_impl; [exact Hnn|]. intros m [_ H]. simpl.
    by apply Qc_of_Z_nonneg. }
  assert (Hrates : forall P `{!forall m, Decision (P m)},
             (0 <= mean (rate <$> filter P rows))%Qc).
  { intros P HP. apply mean_nonneg, Forall_fmap, Forall_forall.
    intros m Hm. apply list_elem_of_filter in Hm as [_ Hm].
    rewrite Forall_forall in Hnn. destruct (Hnn m Hm) as [H1 H2].
    apply Qcdiv_nonneg; by apply Qc_of_Z_nonneg. }
  split; [done|]. split; [done|]. split; [apply Hrates|].
  rewrite Hstats. simpl.
  split; [|split].
  - apply py_round_nonneg, float_mean_column_nonneg.
    eapply Forall_impl; [exact Hnn|]. by intros m [H _].
  - apply py_round_nonneg, float_mean_column_nonneg.
    eapply Forall_impl; [exact Hnn|]. by intros m [_ H].
  - apply py_round_nonneg, float_mean_nonneg, Forall_fmap, Forall_forall.
    intros m Hm. apply list_elem_of_filter in Hm as [_ Hm].
    rewrite Forall_forall in Hnn. destruct (Hnn m Hm) as [H1 H2].
    apply fl_nonneg, Qcdiv_nonneg; by apply Qc_of_Z_nonneg.
Qed.

Lemma report_averages_nonneg_witness :
  (0 <= mean_rate_of_invited
          (report_query None None None None example_store))%Qc.
Proof.
  pose proof (report_run ∅ example_store) as Hrun.
  change (parse_date ((∅ : Params) !! "date_from")) with (Ok (@None date)) in Hrun.
  change (parse_date ((∅ : Params) !! "date_to")) with (Ok (@None date)) in Hrun.
  cbv beta iota zeta in Hrun.
  destruct (report_averages_nonneg example_store ∅ _ _ _ _ _ _
              example_store_reachable Hrun) as (_ & _ & Hrate & _).
  exact Hrate.
Defined.

(** ** Repeated submissions *)

(** A create either ends before the commit, in the same way on every
    store, or reaches the commit with a meeting that does not depend on
    the store. *)
Lemma meetings_create_prefix now form :
  (exists r fl, forall st,
     serve (meetings_create now form) st = (r, mk_ctx st fl))
  \/ (exists m, forall st,
        serve (meetings_create now form) st
        = match insert_meeting m st with
          | Ok st' => (Ok (Redirect url_meetings_list),
                       mk_ctx st' ["Meeting created!"])
          | Raise e => (Raise e, mk_ctx st [])
          end).
Proof.
  unfold meetings_create. run.
  destruct (parse_date (form !! "date")) as [d|e]; simpl;
    [|left; by eexists _, _].
  destruct (reject_if_past now d _); simpl; [left; by eexists _, _|].
  destruct (Z.max 0 <$> py_int_or_0 (form !! "invited_count")) as [i|e];
    simpl; [|left; by eexists _, _].
  destruct (Z.max 0 <$> py_int_or_0 (form !! "accepted_count")) as [a|e];
    simpl; [|left; by eexists _, _].
  destruct (py_int_or_0 (form !! "duration_minutes")) as [du|e];
    simpl; [|left; by eexists _, _].
  destruct (py_int (form !! "club_id")) as [cl|e];
    simpl; [|left; by eexists _, _].
  destruct (py_int (form !! "room_id")) as [ro|e];
    simpl; [|left; by eexists _, _].
  right.
  exists (MeetingObj.mk d (parse_time (form !! "start_time")) du
            (form !! "description") cl ro i a).
  intros st. by destruct (insert_meeting _ st).
Qed.

Lemma insert_meeting_same_references st1 st2 m :
  clubs st1 = clubs st2 -> rooms st1 = rooms st2 ->
  foreign_keys st1 = foreign_keys st2 ->
  (exists s1 s2, insert_meeting m st1 = Ok s1 /\ insert_meeting m st2 = Ok s2)
  \/ (exists e, insert_meeting m st1 = Raise e
                /\ insert_meeting m st2 = Raise e).
Proof.
  intros Hc Hr Hfk.
  unfold insert_meeting, to_row, references_ok, has_club, has_room.
  rewrite Hc, Hr, Hfk.
  repeat case_match; simpl; eauto.
Qed.

(** X18: whether a create is accepted does not depend on the meetings
    already stored: on two stores with the same clubs, rooms and foreign-key
    setting a submission gets the same response and the same notices, so no
    create is refused for clashing with another meeting. *)
Theorem create_ignores_stored_meetings (now : datetime) (form : Params)
    (st1 st2 : Store) :
  clubs st1 = clubs st2 -> rooms st1 = rooms st2 ->
  foreign_keys st1 = foreign_keys st2 ->
  fst (serve (meetings_create now form) st1)
  = fst (serve (meetings_create now form) st2)
  /\ flashed (snd (serve (meetings_create now form) st1))
     = flashed (snd (serve (meetings_create now form) st2)).
Proof.
  intros Hc Hr Hfk.
  destruct (meetings_create_prefix now form) as [(r & fl & H)|(m & H)];
    rewrite !H; [done|].
  destruct (insert_meeting_same_references st1 st2 m Hc Hr Hfk)
    as [(s1 & s2 & -> & ->)|(e & -> & ->)]; done.
Qed.

Lemma create_ignores_stored_meetings_witness :
  fst (serve (meetings_create example_now (example_form "2025-11-10" "20" "12"))
         example_store)
  = fst (serve (meetings_create example_now
                  (example_form "2025-11-10" "20" "12"))
           (startup (empty_db false))).
Proof.
  destruct (create_ignores_stored_meetings example_now
              (example_form "2025-11-10" "20" "12") example_store
              (startup (empty_db false)) eq_refl eq_refl eq_refl)
    as [Hresp _].
  exact Hresp.
Defined.

Lemma next_id_snoc l : next_id (l ++ [next_id l]) = next_id l + 1.
Proof.
  assert (Hpos : 0 <= foldr Z.max 0 l) by (induction l; cbn [foldr]; lia).
  assert (H : forall n, foldr Z.max 0 (l ++ [n])
                        = Z.max (foldr Z.max 0 l) (Z.max n 0)).
  { clear Hpos. intros n. induction l as [|x l IH]; cbn [foldr app]; [lia|].
    rewrite IH. lia. }
  unfold next_id at 1. rewrite H. unfold next_id. lia.
Qed.

(** X19: a submission that is accepted and then sent again is stored a
    second time: when its numeric fields are in the signed 64-bit range of
    an INTEGER column, the store accepts its references and its next two
    keys are in that range too, after two creates with the same form the store holds two
    new rows with the same values, under two consecutive ids. *)
Theorem create_twice_stores_twice (now now' : datetime) (form : Params)
    (st : Store) (d : date) (t : time) (i a du cl ro : Z) :
  parse_date (form !! "date") = Ok (Some d) ->
  parse_time (form !! "start_time") = Some t ->
  ~ earlier (combine d t) now -> ~ earlier (combine d t) now' ->
  py_int_or_0 (form !! "invited_count") = Ok i ->
  py_int_or_0 (form !! "accepted_count") = Ok a ->
  py_int_or_0 (form !! "duration_minutes") = Ok du ->
  py_int (form !! "club_id") = Ok cl ->
  py_int (form !! "room_id") = Ok ro ->
  int64 du = true -> int64 cl = true -> int64 ro = true ->
  int64 (Z.max 0 i) = true -> int64 (Z.max 0 a) = true ->
  references_ok st cl ro = true ->
  int64 (next_id (ids st) + 1) = true ->
  let row n := Meeting.mk n d t du (form !! "description") cl ro
                 (Z.max 0 i) (Z.max 0 a) in
  let st1 := store_after (serve (meetings_create now form) st) in
  serve (meetings_create now' form) st1
  = (Ok (Redirect url_meetings_list),
     mk_ctx (set_meetings
               (meetings st ++ [row (next_id (ids st));
                                row (next_id (ids st) + 1)]) st)
       ["Meeting created!"]).
Proof.
  intros Hd Ht Hnow Hnow' Hi Ha Hdu Hcl Hro Fdu Fcl Fro Fi Fa Hrefs _ row st1.
  assert (Hfit : integers_fit
                   (MeetingObj.mk (Some d) (Some t) du (form !! "description")
                      cl ro (Z.max 0 i) (Z.max 0 a)) = true)
    by (by apply integers_fit_intro).
  apply not_earlier_not_past in Hnow, Hnow'. simpl in Hnow, Hnow'.
  assert (Hst1 : st1 = set_meetings
                         (meetings st ++ [row (next_id (ids st))]) st).
  { unfold st1. by erewrite meetings_create_accepts. }
  rewrite Hst1.
  erewrite meetings_create_accepts; try done.
  unfold ids. simpl. rewrite fmap_app. simpl.
  rewrite next_id_snoc, <- app_assoc. done.
Qed.

Lemma create_twice_stores_twice_witness :
  Meeting.meeting_id
    <$> meetings
          (store_after
             (serve (meetings_create example_now
                       (example_form "2025-12-01" "7" "9"))
                (store_after
                   (serve (meetings_create example_now
                             (example_form "2025-12-01" "7" "9"))
                      example_store))))
  = [1; 2; 3; 4; 5].
Proof.
  assert (Hnow : ~ earlier (combine (mk_date 2025 12 1) (mk_time 18 30 0 0))
                     example_now).
  { intros H. apply datetime_ltb_earlier in H. vm_compute in H.
    discriminate H. }
  rewrite (create_twice_stores_twice example_now example_now
             (example_form "2025-12-01" "7" "9") example_store
             (mk_date 2025 12 1) (mk_time 18 30 0 0) 7 9 60 1 1
             eq_refl eq_refl Hnow Hnow eq_refl eq_refl eq_refl eq_refl
             eq_refl eq_refl eq_refl eq_refl eq_refl eq_refl eq_refl
             eq_refl).
  vm_compute. reflexivity.
Defined.

Lemma update_twice_fmap id row (rows : list Meeting.t) :
  Meeting.meeting_id row = id ->
  (fun r => if decide (Meeting.meeting_id r = id) then row else r)
    <$> ((fun r => if decide (Meeting.meeting_id r = id) then row else r)
           <$> rows)
  = (fun r => if decide (Meeting.meeting_id r = id) then row else r) <$> rows.
Proof.
  intros Hid. rewrite <- list_fmap_compose. apply list_fmap_ext.
  intros k r _. simpl. destruct (decide (Meeting.meeting_id r = id)).
  - by rewrite decide_True.
  - by rewrite decide_False.
Qed.

(** X20: an update is idempotent: when an update that succeeded is sent
    again and succeeds again, the store after the second is the store
    after the first. *)
Theorem update_twice_same_store (now now' : datetime) (id : Z) (form : Params)
    (st : Store) (c c' : Ctx) :
  serve (meetings_update now id form) st
  = (Ok (Redirect url_meetings_list), c) ->
  serve (meetings_update now' id form) (db c)
  = (Ok (Redirect url_meetings_list), c') ->
  db c' = db c.
Proof.
  intros H1 H2.
  apply meetings_update_success in H1
    as (m0 & d & t & i & a & du & cl & ro & _ & Hd & Ht & Hi & Ha & Hdu & Hcl
        & Hro & ->).
  apply meetings_update_success in H2
    as (m1 & d' & t' & i' & a' & du' & cl' & ro' & _ & Hd' & Ht' & Hi' & Ha'
        & Hdu' & Hcl' & Hro' & ->).
  assert (d' = d) as -> by congruence. assert (t' = t) as -> by congruence.
  assert (i' = i) as -> by congruence. assert (a' = a) as -> by congruence.
  assert (du' = du) as -> by congruence.
  assert (cl' = cl) as -> by congruence.
  assert (ro' = ro) as -> by congruence.
  cbv zeta. simpl. unfold set_meetings. simpl. f_equal.
  by apply update_twice_fmap.
Qed.

Lemma update_twice_same_store_witness :
  store_after
    (serve (meetings_update example_now 2 (example_form "2025-12-01" "7" "9"))
       (store_after
          (serve (meetings_update example_now 2
                    (example_form "2025-12-01" "7" "9")) example_store)))
  = store_after
      (serve (meetings_update example_now 2
                (example_form "2025-12-01" "7" "9")) example_store).
Proof.
  eapply (update_twice_same_store example_now example_now 2
            (example_form "2025-12-01" "7" "9") example_store
            (snd (serve (meetings_update example_now 2
                           (example_form "2025-12-01" "7" "9"))
                    example_store))
            (snd (serve (meetings_update example_now 2
                           (example_form "2025-12-01" "7" "9"))
                    (store_after
                       (serve (meetings_update example_now 2
                                 (example_form "2025-12-01" "7" "9"))
                          example_store)))));
    vm_compute; reflexivity.
Defined.
